(** * ctlstore sidecar: the request-handling layer of [pkg/sidecar/sidecar.go]

    A shallow embedding of the sidecar's key codec, its five handlers and the
    error translator wrapped around them, followed by the properties that the
    specification states about them.

    Conventions.
    - Go's [int] and [time.Duration] are [Z]; [float64] is the kernel's
      binary64 [float].
    - A nil slice and an empty non-nil slice differ in Go, so a [[]byte] field
      is an [option (list byte)] with [None] for nil.
    - [interface{}] is the inductive [iface] of the dynamic values that occur
      in this package.
    - Handlers are state-passing functions over a [World] holding the response
      writer and the trace of calls made on collaborators. *)

From Stdlib Require Import ZArith String Ascii Strings.Byte List Lia Floats Uint63 DecimalString.
From stdpp Require Import base option list gmap strings.

Local Open Scope Z_scope.

(** ** Dynamic values *)

(** The values an [interface{}] holds in this package: what [encoding/json]
    decodes into a [Key.Value], the [[]byte] of a [Key.Binary], the column
    values of a row, and the maps and slices the handlers build. *)
#[local] Unset Elimination Schemes.
Inductive iface : Type :=
| Nil
| Bool (b : bool)
| Int64 (n : Z)
| Float64 (f : float)
| String_ (s : string)
| Bytes (b : list byte)
| Slice (xs : list iface)
| Map (m : gmap string iface).

#[local] Set Elimination Schemes.

(** A row is a [map[string]interface{}]. *)
Abbreviation Row := (gmap string iface).

(** ** Key codec *)

Module Key.

(** [type Key struct { Value interface{}; Binary []byte }] *)
Record t := mk {
  Value : iface;
  Binary : option (list byte)
}.

(** [func (k Key) ToValue() interface{}] *)
Definition ToValue (k : t) : iface :=
  match Binary k with
  | Some b => Bytes b
  | None => Value k
  end.

(** The resolution rule as the specification words it: the binary payload
    if it is non-empty, else the scalar value (a missing scalar is [Nil], the
    zero value of [interface{}]). *)
Definition resolve_spec (k : t) : iface :=
  match Binary k with
  | Some (x :: b) => Bytes (x :: b)
  | _ => Value k
  end.

End Key.

(** [type ReadRequest struct { Key []Key }] *)
Record ReadRequest := { Key : list Key.t }.

(** [func keysToInterface(keys []Key) []interface{}]: the loop appends the
    resolution of each key to [res], starting from the nil slice. *)
Definition keysToInterface (keys : list Key.t) : list iface :=
  fold_left (fun res k => res ++ [Key.ToValue k]) keys [].

(** ** Errors *)

(** An error value handed to the sidecar by a collaborator (the Reader, a
    row cursor, [encoding/json]); the sidecar knows it by its text only. *)
Inductive ext_error := ExtError (text : string).

(** The non-nil [error] values a handler can return: a collaborator's error,
    an error wrapped with context, or one the sidecar formats itself. The
    three constructors keep apart what Go keeps apart by pointer identity. *)
Inductive error :=
| Foreign (e : ext_error)
| Wrapped (cause : error) (msg : string)
| Formatted (msg : string).

(** [err.Error()] *)
Fixpoint Error (e : error) : string :=
  match e with
  | Foreign (ExtError text) => text
  | Wrapped cause msg => msg +:+ ": " +:+ Error cause
  | Formatted msg => msg
  end.

Module errors.

(** [errors.Wrap(err, msg)] of segmentio/errors-go: nil stays nil. *)
Definition Wrap (err : option error) (msg : string) : option error :=
  match err with
  | None => None
  | Some e => Some (Wrapped e msg)
  end.

End errors.

Module fmt.

(** The [%d] verb on an [int]. *)
Definition d (n : Z) : string := NilZero.string_of_int (Z.to_int n).

End fmt.

(** [errors.Errorf("max row count (%d) exceeded", maxRows)] *)
Definition maxRowsExceeded (maxRows : Z) : error :=
  Formatted ("max row count (" +:+ fmt.d maxRows +:+ ") exceeded").

(** ** time.Duration *)

Module time.

(** [float64(n)] for an [int64] of magnitude below [2^63]. *)
Definition float64_of_int64 (n : Z) : float :=
  if n <? 0 then PrimFloat.opp (PrimFloat.of_uint63 (Uint63.of_Z (- n)))
  else PrimFloat.of_uint63 (Uint63.of_Z n).

Definition Second : Z := 1000000000.

(** [func (d Duration) Seconds() float64]:
    [sec := d / Second; nsec := d % Second;
     return float64(sec) + float64(nsec)/1e9]. *)
Definition Seconds (d : Z) : float :=
  let sec := Z.quot d Second in
  let nsec := Z.rem d Second in
  PrimFloat.add (float64_of_int64 sec)
                (PrimFloat.div (float64_of_int64 nsec) 1e9%float).

End time.

(** [x] is zero or a finite number below [2^k] in absolute value. *)
Definition mag_le (x : spec_float) (k : Z) : Prop :=
  match x with
  | S754_zero _ => True
  | S754_finite _ m e => Zpos (digits2_pos m) + e <= k
  | _ => False
  end.

(** [x] is the integer [n], held without rounding. *)
Definition represents_int (x : spec_float) (n : Z) : Prop :=
  match x with
  | S754_zero _ => n = 0
  | S754_finite s m e => e <= 0 /\ cond_Zopp s (Zpos m) = n * 2 ^ (- e)
  | _ => False
  end.

(** ** Row cursor *)

(** Modelled from the spec: [ctlstore.Rows], the RowCursor, is declared
    outside this package. It is a lazy, finite, forward-only sequence of
    rows: either iteration has ended ([Next] reports false and [Err] reports
    [err]), or there is a next record ([Next] reports true) that [Scan]
    decodes into a row or fails on. *)
Inductive Rows :=
| RowsEnd (err : option ext_error)
| RowsMore (scan : ext_error + Row) (rest : Rows).

(** [rows.Scan(out)]: the columns of the record are stored into [out]. *)
Definition Scan (item : ext_error + Row) (out : Row) : Row * option ext_error :=
  match item with
  | inr row => (row ∪ out, None)
  | inl e => (out, Some e)
  end.

(** [rows.Err()] *)
Definition Err (rows : Rows) : option ext_error :=
  match rows with
  | RowsEnd err => err
  | RowsMore _ _ => None
  end.

(** The cursor over the rows [rs] that ends with [err]. *)
Definition cursor_of (rs : list Row) (err : option ext_error) : Rows :=
  foldr (fun row rest => RowsMore (inr row) rest) (RowsEnd err) rs.

(** The rows a cursor yields: those decoded before the first record that
    fails to scan, or before the end. *)
Fixpoint yielded (rows : Rows) : list Row :=
  match rows with
  | RowsMore (inr row) rest => row :: yielded rest
  | _ => []
  end.

(** ** Reader, configuration, sidecar *)

(** [type Reader interface]: one outcome per call. [GetRowByKey] receives
    the [out] map and returns it as the store left it. A prefix scan returns
    a cursor or an error. *)
Record Reader := {
  GetRowByKey : Row -> string -> string -> list iface -> Row * bool * option ext_error;
  GetRowsByKeyPrefix : string -> string -> list iface -> ext_error + Rows;
  GetLedgerLatency : Z * option ext_error
}.

Module Config.
Record t := mk {
  BindAddr : string;
  Reader : Reader;
  MaxRows : Z
}.
End Config.

Record Sidecar := {
  bindAddr : string;
  reader : Reader;
  maxRows : Z
}.

(** [func New(config Config)] returns the sidecar; its error is always nil. *)
Definition New (config : Config.t) : Sidecar :=
  {| bindAddr := Config.BindAddr config;
     reader := Config.Reader config;
     maxRows := Config.MaxRows config |}.

(** ** Requests and the response writer *)

(** The parts of [*http.Request] the handlers read; [Vars] is [mux.Vars(r)]. *)
Record Request := {
  URL : string;
  UserAgent : string;
  Vars : gmap string string;
  Body : string
}.

(** [vars[k]]: indexing a Go map yields the zero value for a missing key. *)
Definition index (vars : gmap string string) (k : string) : string :=
  default "" (vars !! k).

(** What has been written to a response body: the JSON encoding of a value
    followed by a newline ([Encoder.Encode]), or a line of text
    ([http.Error]). *)
Inductive BodyPart :=
| JSONLine (v : iface)
| TextLine (s : string).

(** An [http.ResponseWriter] that records, as [httptest.ResponseRecorder]
    does: the header map, the status and headers committed by the first
    [WriteHeader] or [Write], and the body written so far. *)
Record ResponseWriter := {
  header : gmap string string;
  wroteHeader : option (Z * gmap string string);
  body : list BodyPart
}.

(** The response a client receives: 200 when nothing was committed. *)
Record Response := {
  StatusCode : Z;
  Header : gmap string string;
  ResponseBody : list BodyPart
}.

Definition Result (w : ResponseWriter) : Response :=
  match wroteHeader w with
  | Some (code, h) => {| StatusCode := code; Header := h; ResponseBody := body w |}
  | None => {| StatusCode := 200; Header := header w; ResponseBody := body w |}
  end.

(** ** The world of one request *)

(** Calls made on collaborators, in order. *)
Inductive Event :=
| ReaderGetRowByKey (family table : string) (key : list iface)
| ReaderGetRowsByKeyPrefix (family table : string) (key : list iface)
| ReaderGetLedgerLatency
| RowsNext (more : bool)
| RowsScan
| RowsErr
| RowsClose
| StatsObserve (op userAgent : string)
| EventsLog (err url : string)
| ResponseSetHeader (k v : string)
| ResponseWriteHeader (code : Z)
| ResponseWrite (part : BodyPart).

Record World := {
  resp : ResponseWriter;
  trace : list Event
}.

Definition fresh : World :=
  {| resp := {| header := ∅; wroteHeader := None; body := [] |}; trace := [] |}.

Definition M (A : Type) : Type := World -> A * World.

Definition ret {A} (x : A) : M A := fun w => (x, w).

Definition bind {A B} (m : M A) (k : A -> M B) : M B :=
  fun w => let (x, w') := m w in k x w'.

Declare Scope handler_scope.
Delimit Scope handler_scope with handler.
Bind Scope handler_scope with M.
Notation "x <- c1 ;; c2" := (bind c1 (fun x => c2))
  (at level 100, c1 at next level, right associativity) : handler_scope.
Notation "c1 ;; c2" := (bind c1 (fun _ => c2))
  (at level 100, right associativity) : handler_scope.
Local Open Scope handler_scope.

Definition emit (e : Event) : M unit :=
  fun w => (tt, {| resp := resp w; trace := trace w ++ [e] |}).

Definition modify_resp (f : ResponseWriter -> ResponseWriter) : M unit :=
  fun w => (tt, {| resp := f (resp w); trace := trace w |}).

(** [defer d] around [body]: [d] runs when [body] returns. *)
Definition defer {A} (d : M unit) (body : M A) : M A :=
  x <- body ;; d ;; ret x.

(** [w.Header().Set(k, v)] *)
Definition Header_Set (k v : string) : M unit :=
  emit (ResponseSetHeader k v) ;;
  modify_resp (fun w =>
    {| header := <[k := v]> (header w); wroteHeader := wroteHeader w; body := body w |}).

Definition commit (code : Z) (w : ResponseWriter) : ResponseWriter :=
  match wroteHeader w with
  | Some _ => w
  | None => {| header := header w; wroteHeader := Some (code, header w); body := body w |}
  end.

(** [w.WriteHeader(code)]: only the first call commits. *)
Definition WriteHeader (code : Z) : M unit :=
  emit (ResponseWriteHeader code) ;; modify_resp (commit code).

(** [w.Write(...)]: commits status 200 if nothing was committed. *)
Definition Write (part : BodyPart) : M unit :=
  emit (ResponseWrite part) ;;
  modify_resp (fun w =>
    let w := commit 200 w in
    {| header := header w; wroteHeader := wroteHeader w; body := body w ++ [part] |}).

(** [http.Error(w, msg, code)] *)
Definition http_Error (msg : string) (code : Z) : M unit :=
  Header_Set "Content-Type" "text/plain; charset=utf-8" ;;
  Header_Set "X-Content-Type-Options" "nosniff" ;;
  WriteHeader code ;;
  Write (TextLine msg).

(** ** encoding/json *)

(** The values [encoding/json] can encode: a [float64] must be finite. *)
Fixpoint json_supported (v : iface) : bool :=
  match v with
  | Float64 f => PrimFloat.is_finite f
  | Slice xs => forallb json_supported xs
  | Map m => map_fold (fun _ x acc => json_supported x && acc) true m
  | _ => true
  end.

(** [json.NewEncoder(w).Encode(v)]: the value is encoded in full before
    anything is written. *)
Definition Encode (v : iface) : M (option error) :=
  if json_supported v then Write (JSONLine v) ;; ret None
  else ret (Some (Foreign (ExtError "json: unsupported value"))).

(** ** Handlers *)

Section Handlers.

(** [json.NewDecoder(r.Body).Decode(&rr)]: the decoder of [encoding/json]
    is a parameter; it yields the decoded request or a decode error. *)
Variable Decode : string -> ext_error + ReadRequest.

(** [func (s *Sidecar) observeAPILatency(r, op) func()]: the returned
    function records the elapsed time under [op] and the caller's user
    agent when it is called. *)
Definition observeAPILatency (r : Request) (op : string) : M unit :=
  emit (StatsObserve op (UserAgent r)).

(** Calls on [s.reader]. *)
Definition reader_GetRowByKey (s : Sidecar) (out : Row) (family table : string)
    (key : list iface) : M (Row * bool * option ext_error) :=
  emit (ReaderGetRowByKey family table key) ;;
  ret (GetRowByKey (reader s) out family table key).

Definition reader_GetRowsByKeyPrefix (s : Sidecar) (family table : string)
    (key : list iface) : M (ext_error + Rows) :=
  emit (ReaderGetRowsByKeyPrefix family table key) ;;
  ret (GetRowsByKeyPrefix (reader s) family table key).

Definition reader_GetLedgerLatency (s : Sidecar) : M (Z * option ext_error) :=
  emit ReaderGetLedgerLatency ;;
  ret (GetLedgerLatency (reader s)).

(** [func (s *Sidecar) getLedgerLatency(w, r) error] *)
Definition getLedgerLatency (s : Sidecar) (r : Request) : M (option error) :=
  defer (observeAPILatency r "get-ledger-latency") (
    got <- reader_GetLedgerLatency s ;;
    let '(duration, err) := got in
    match err with
    | Some e => ret (errors.Wrap (Some (Foreign e)) "get ledger latency")
    | None =>
        let res : Row :=
          {[ "value" := Float64 (time.Seconds duration);
             "unit" := String_ "seconds" ]} in
        Encode (Map res)
    end).

(** [func (s *Sidecar) healthcheck(w, r) error] *)
Definition healthcheck (s : Sidecar) (r : Request) : M (option error) :=
  defer (observeAPILatency r "healthcheck") (
    got <- reader_GetLedgerLatency s ;;
    let '(_, err) := got in
    ret (errors.Wrap (Foreign <$> err) "healthcheck")).

(** [func (s *Sidecar) ping(w, r) error] *)
Definition ping (s : Sidecar) (r : Request) : M (option error) :=
  defer (observeAPILatency r "ping") (healthcheck s r).

(** The loop [for rows.Next() { ... }] of [getRowsByKeyPrefix]. It ends
    with the error of an early [return], or with the accumulated [res] and
    the cursor at its end. *)
Fixpoint rowsLoop (maxRows : Z) (rows : Rows) (res : list iface)
    : M (error + list iface * Rows) :=
  match rows with
  | RowsEnd _ => emit (RowsNext false) ;; ret (inr (res, rows))
  | RowsMore item rest =>
      emit (RowsNext true) ;;
      let out : Row := ∅ in
      emit RowsScan ;;
      match Scan item out with
      | (_, Some e) => ret (inl (Wrapped (Foreign e) "scan"))
      | (out, None) =>
          let res := res ++ [Map out] in
          if (maxRows >? 0) && (Z.of_nat (length res) >? maxRows)
          then ret (inl (maxRowsExceeded maxRows))
          else rowsLoop maxRows rest res
      end
  end.

(** [func (s *Sidecar) getRowsByKeyPrefix(w, r) error] *)
Definition getRowsByKeyPrefix (s : Sidecar) (r : Request) : M (option error) :=
  defer (observeAPILatency r "get-rows-by-key-prefix") (
    let vars := Vars r in
    let family := index vars "familyName" in
    let table := index vars "tableName" in
    match Decode (Body r) with
    | inl e => ret (errors.Wrap (Some (Foreign e)) "decode body")
    | inr rr =>
        let res : list iface := [] in
        got <- reader_GetRowsByKeyPrefix s family table (keysToInterface (Key rr)) ;;
        match got with
        | inl e => ret (Some (Foreign e))
        | inr rows =>
            defer (emit RowsClose) (
              looped <- rowsLoop (maxRows s) rows res ;;
              match looped with
              | inl e => ret (Some e)
              | inr (res, rows) =>
                  emit RowsErr ;;
                  match Err rows with
                  | Some e => ret (Some (Foreign e))
                  | None => Encode (Slice res)
                  end
              end)
        end
    end).

(** [func (s *Sidecar) getRowByKey(w, r) error] *)
Definition getRowByKey (s : Sidecar) (r : Request) : M (option error) :=
  defer (observeAPILatency r "get-row-by-key") (
    let vars := Vars r in
    let family := index vars "familyName" in
    let table := index vars "tableName" in
    match Decode (Body r) with
    | inl e => ret (errors.Wrap (Some (Foreign e)) "decode body")
    | inr rr =>
        let out : Row := ∅ in
        got <- reader_GetRowByKey s out family table (keysToInterface (Key rr)) ;;
        let '(out, found, err) := got in
        match err with
        | Some e => ret (Some (Foreign e))
        | None =>
            if negb found then
              Header_Set "X-Ctlstore" "Not Found" ;;
              WriteHeader 404 ;;
              ret None
            else Encode (Map out)
        end
    end).

(** The [handleErr] wrapper of [New]: a handler's error is logged with the
    URL and answered with status 500 and the error's text. *)
Definition handleErr (fn : Request -> M (option error)) (r : Request) : M unit :=
  err <- fn r ;;
  match err with
  | Some e =>
      emit (EventsLog (Error e) (URL r)) ;;
      http_Error (Error e) 500
  | None => ret tt
  end.

(** The five routes registered by [New]. *)
Inductive Route :=
| GetRowByKeyRoute
| GetRowsByKeyPrefixRoute
| GetLedgerLatencyRoute
| HealthcheckRoute
| PingRoute.

Definition route_method (rt : Route) : string :=
  match rt with
  | GetRowByKeyRoute | GetRowsByKeyPrefixRoute => "POST"
  | _ => "GET"
  end.

Definition route_path (rt : Route) : string :=
  match rt with
  | GetRowByKeyRoute => "/get-row-by-key/{familyName}/{tableName}"
  | GetRowsByKeyPrefixRoute => "/get-rows-by-key-prefix/{familyName}/{tableName}"
  | GetLedgerLatencyRoute => "/get-ledger-latency"
  | HealthcheckRoute => "/healthcheck"
  | PingRoute => "/ping"
  end.

Definition route_handler (s : Sidecar) (rt : Route) : Request -> M (option error) :=
  match rt with
  | GetRowByKeyRoute => getRowByKey s
  | GetRowsByKeyPrefixRoute => getRowsByKeyPrefix s
  | GetLedgerLatencyRoute => getLedgerLatency s
  | HealthcheckRoute => healthcheck s
  | PingRoute => ping s
  end.

(** [func (s *Sidecar) ServeHTTP(w, r)] for a request the router matched to
    the route [rt]. *)
Definition ServeHTTP (s : Sidecar) (rt : Route) (r : Request) : M unit :=
  handleErr (route_handler s rt) r.

(** The world after a request was served with a fresh response writer, and
    the response the client receives. *)
Definition served (s : Sidecar) (rt : Route) (r : Request) : World :=
  snd (ServeHTTP s rt r fresh).

Definition response (s : Sidecar) (rt : Route) (r : Request) : Response :=
  Result (resp (served s rt r)).

End Handlers.

(** ** Trace observations *)

(** Fetching from a cursor: [Next], [Scan]. *)
Definition is_fetch (e : Event) : bool :=
  match e with
  | RowsNext _ | RowsScan => true
  | _ => false
  end.

Definition is_close (e : Event) : bool :=
  match e with RowsClose => true | _ => false end.

Definition is_cursor_call (e : Event) : bool :=
  match e with
  | RowsNext _ | RowsScan | RowsErr | RowsClose => true
  | _ => false
  end.

Definition is_reader_call (e : Event) : bool :=
  match e with
  | ReaderGetRowByKey _ _ _ | ReaderGetRowsByKeyPrefix _ _ _
  | ReaderGetLedgerLatency => true
  | _ => false
  end.

Definition is_response_call (e : Event) : bool :=
  match e with
  | ResponseSetHeader _ _ | ResponseWriteHeader _ | ResponseWrite _ => true
  | _ => false
  end.

Definition is_log (e : Event) : bool :=
  match e with EventsLog _ _ => true | _ => false end.

Definition count (p : Event -> bool) (l : list Event) : nat :=
  length (List.filter p l).

(** No record is fetched from a cursor once the response has been touched. *)
Fixpoint no_fetch_after_response (l : list Event) : bool :=
  match l with
  | [] => true
  | e :: l' =>
      if is_response_call e then forallb (fun e' => negb (is_fetch e')) l'
      else no_fetch_after_response l'
  end.

(** One fetched and decoded record: [Next] reports true, then [Scan]. *)
Definition fetches (n : nat) : list Event :=
  concat (replicate n [RowsNext true; RowsScan]).

(** ** Fixtures *)

Module Demo.

(** A decoder outcome for two bodies: the empty object decodes to a request
    without key segments, anything else is malformed. *)
Definition Decode (body : string) : ext_error + ReadRequest :=
  if String.eqb body "{}" then inr {| Key := [] |}
  else inl (ExtError "unexpected EOF").

Definition row (id : Z) (name : string) : Row :=
  {[ "id" := Int64 id; "name" := String_ name ]}.

Definition three_rows : list Row := [row 1 "Ann"; row 2 "Bob"; row 3 "Cyd"].
Definition two_rows : list Row := [row 1 "Ann"; row 2 "Bob"].

(** A reader whose scans yield [rs], whose lookups find nothing, and whose
    replica lags by [lag] nanoseconds. *)
Definition reader (rs : list Row) (lag : Z) : Reader :=
  {| GetRowByKey := fun out _ _ _ => (out, false, None);
     GetRowsByKeyPrefix := fun _ _ _ => inr (cursor_of rs None);
     GetLedgerLatency := (lag, None) |}.

Definition sidecar (rs : list Row) (max : Z) : Sidecar :=
  New (Config.mk "localhost:1331" (reader rs 1500000000) max).

Definition request (body : string) : Request :=
  {| URL := "/get-rows-by-key-prefix/family/table";
     UserAgent := "curl";
     Vars := {[ "familyName" := "family"; "tableName" := "table" ]};
     Body := body |}.

(** A reader whose replica cannot be reached and whose scans fail on the
    second record. *)
Definition failing : Reader :=
  {| GetRowByKey := fun out _ _ _ => (out, false, Some (ExtError "replica unreachable"));
     GetRowsByKeyPrefix := fun _ _ _ =>
       inr (RowsMore (inr (row 1 "Ann"))
              (RowsMore (inl (ExtError "bad column"))
                 (RowsMore (inr (row 3 "Cyd")) (RowsEnd None))));
     GetLedgerLatency := (0, Some (ExtError "replica unreachable")) |}.

Definition unhealthy : Sidecar :=
  New (Config.mk "localhost:1331" failing 0).

End Demo.

(** ** Further observations *)

Definition is_observe (e : Event) : bool :=
  match e with StatsObserve _ _ => true | _ => false end.

Definition is_scan (e : Event) : bool :=
  match e with RowsScan => true | _ => false end.

(** The operation names under which the handlers of a route observe their
    latency, in the order in which the deferred observations run: [ping]
    defers its own observation around [healthcheck]. *)
Definition route_ops (rt : Route) : list string :=
  match rt with
  | GetRowByKeyRoute => ["get-row-by-key"]
  | GetRowsByKeyPrefixRoute => ["get-rows-by-key-prefix"]
  | GetLedgerLatencyRoute => ["get-ledger-latency"]
  | HealthcheckRoute => ["healthcheck"]
  | PingRoute => ["healthcheck"; "ping"]
  end.

Definition observations (rt : Route) (r : Request) : list Event :=
  map (fun op => StatsObserve op (UserAgent r)) (route_ops rt).

(** The response writer after [Header().Set("X-Ctlstore", "Not Found")] and
    [WriteHeader(404)], and after one successful [Encode]. *)
Definition not_found_writer : ResponseWriter :=
  {| header := {[ "X-Ctlstore" := "Not Found" ]};
     wroteHeader := Some (404, {[ "X-Ctlstore" := "Not Found" ]});
     body := [] |}.

Definition encoded_writer (v : iface) : ResponseWriter :=
  {| header := ∅; wroteHeader := Some (200, ∅); body := [JSONLine v] |}.

(** Two computations agree on what they return and on what they leave in
    the response, whenever they start from the same response; their traces
    may differ. *)
Definition same_outcome {A} (m m' : M A) : Prop :=
  forall w w' : World,
    resp w = resp w' ->
    fst (m w) = fst (m' w') /\ resp (snd (m w)) = resp (snd (m' w')).

(** The cursor that yields the rows [rs] and then continues as [rest]. *)
Definition rows_then (rs : list Row) (rest : Rows) : Rows :=
  foldr (fun row rest => RowsMore (inr row) rest) rest rs.

(** ** MySQL column introspection *)

Module mysql.

(** [schema.DBColumnInfo], with the fields the composite literal of
    [GetColumnInfo] fills. *)
Record DBColumnInfo := {
  TableName : string;
  Index : Z;
  ColumnName : string;
  DataType : string;
  IsPrimaryKey : bool
}.

(** The five columns selected by the query, as [rows.Scan] stores them
    into [tableName], [index], [colName], [dataType] and [colKey]. *)
Record Columns := {
  table_name : string;
  ordinal_position : Z;
  column_name : string;
  data_type : string;
  column_key : string
}.

(** [*sql.Rows]: iteration has ended with the error [Err] reports, or there
    is a next record that [Scan] decodes or fails on. *)
Inductive sqlRows :=
| SqlEnd (err : option ext_error)
| SqlMore (scan : ext_error + Columns) (rest : sqlRows).

(** [*sql.DB]: one outcome per query. *)
Record DB := {
  QueryContext : string -> list iface -> ext_error + sqlRows
}.

(** [type MySQLDBInfo struct { Db *sql.DB }] *)
Record MySQLDBInfo := { Db : DB }.

(** Calls made on the database and on the rows it returns. *)
Inductive Event :=
| Query (qs : string) (args : list iface)
| Next (more : bool)
| Scan
| Err
| Close.

Definition Q (A : Type) : Type := list Event -> A * list Event.

Definition ret {A} (x : A) : Q A := fun t => (x, t).

Definition bind {A B} (m : Q A) (k : A -> Q B) : Q B :=
  fun t => let (x, t') := m t in k x t'.

Definition emit (e : Event) : Q unit := fun t => (tt, t ++ [e]).

Declare Scope db_scope.
Delimit Scope db_scope with db.
Bind Scope db_scope with Q.
Notation "x <- c1 ;; c2" := (bind c1 (fun x => c2))
  (at level 100, c1 at next level, right associativity) : db_scope.
Notation "c1 ;; c2" := (bind c1 (fun _ => c2))
  (at level 100, right associativity) : db_scope.
Local Open Scope db_scope.

Definition defer {A} (d : Q unit) (body : Q A) : Q A :=
  x <- body ;; d ;; ret x.

(** [rows.Err()] *)
Definition rowsErr (rows : sqlRows) : option ext_error :=
  match rows with
  | SqlEnd err => err
  | SqlMore _ _ => None
  end.

(** The cursor over the records [cs] that ends with [err], and the cursor
    that yields [cs] and continues as [rest]. *)
Definition records_then (cs : list Columns) (rest : sqlRows) : sqlRows :=
  foldr (fun c rest => SqlMore (inr c) rest) rest cs.

Definition records (cs : list Columns) (err : option ext_error) : sqlRows :=
  records_then cs (SqlEnd err).

(** The [schema.DBColumnInfo] literal built from one scanned record. *)
Definition columnInfo (c : Columns) : DBColumnInfo :=
  {| TableName := table_name c;
     Index := ordinal_position c;
     ColumnName := column_name c;
     DataType := data_type c;
     IsPrimaryKey := String.eqb (column_key c) "PRI" |}.

Definition is_close (e : Event) : bool :=
  match e with Close => true | _ => false end.

Definition is_query (e : Event) : bool :=
  match e with Query _ _ => true | _ => false end.

Definition is_rows_call (e : Event) : bool :=
  match e with Query _ _ => false | _ => true end.

Definition count (p : Event -> bool) (l : list Event) : nat :=
  length (List.filter p l).

(** One fetched and scanned record. *)
Definition fetches (n : nat) : list Event :=
  concat (replicate n [Next true; Scan]).

Section GetColumnInfo.

(** [sqlgen.SqlSprintf] with one argument and [sqlgen.SQLPlaceholderSet]
    are declared in another package; they are parameters. *)
Variable SqlSprintf : string -> string -> string.
Variable SQLPlaceholderSet : Z -> string.

Definition columnsQuery : string :=
  "SELECT table_name, ordinal_position, column_name, data_type, column_key "
  +:+ "FROM information_schema.columns "
  +:+ "WHERE table_name IN ($1) "
  +:+ "AND table_schema = DATABASE() "
  +:+ "ORDER BY table_name, ordinal_position ASC".

(** The loop [for rows.Next() { ... }] of [GetColumnInfo]. *)
Fixpoint columnsLoop (rows : sqlRows) (columnInfos : list DBColumnInfo)
    : Q (ext_error + list DBColumnInfo * sqlRows) :=
  match rows with
  | SqlEnd _ => emit (Next false) ;; ret (inr (columnInfos, rows))
  | SqlMore item rest =>
      emit (Next true) ;;
      emit Scan ;;
      match item with
      | inl e => ret (inl e)
      | inr c => columnsLoop rest (columnInfos ++ [columnInfo c])
      end
  end.

(** [func (m *MySQLDBInfo) GetColumnInfo(ctx, tableNames)]: the returned
    slice is [None] for nil. *)
Definition GetColumnInfo (m : MySQLDBInfo) (tableNames : list string)
    : Q (option (list DBColumnInfo) * option ext_error) :=
  if Z.of_nat (length tableNames) =? 0 then ret (None, None)
  else
    let qs := SqlSprintf columnsQuery
                (SQLPlaceholderSet (Z.of_nat (length tableNames))) in
    let ptrTableNames :=
      fold_left (fun acc tableName => acc ++ [String_ tableName]) tableNames [] in
    emit (Query qs ptrTableNames) ;;
    match QueryContext (Db m) qs ptrTableNames with
    | inl e => ret (None, Some e)
    | inr rows =>
        defer (emit Close) (
          looped <- columnsLoop rows [] ;;
          match looped with
          | inl e => ret (None, Some e)
          | inr (columnInfos, rows) =>
              emit Err ;;
              match rowsErr rows with
              | Some e => ret (None, Some e)
              | None => ret (Some columnInfos, None)
              end
          end)
    end.

End GetColumnInfo.

End mysql.

(** Fixtures for the column introspection. *)
Module DemoDb.

(** Stand-ins for the two [sqlgen] helpers: [n] question marks joined by
    commas, and the substitution of the argument for [$1]. *)
Definition SQLPlaceholderSet (n : Z) : string :=
  String.concat "," (repeat "?" (Z.to_nat n)).

Fixpoint SqlSprintf (format arg : string) : string :=
  match format with
  | String "$" (String "1" rest) => arg +:+ rest
  | String c rest => String c (SqlSprintf rest arg)
  | EmptyString => EmptyString
  end.

Definition id_column : mysql.Columns :=
  {| mysql.table_name := "users"; mysql.ordinal_position := 1;
     mysql.column_name := "id"; mysql.data_type := "int";
     mysql.column_key := "PRI" |}.

Definition name_column : mysql.Columns :=
  {| mysql.table_name := "users"; mysql.ordinal_position := 2;
     mysql.column_name := "name"; mysql.data_type := "varchar";
     mysql.column_key := "" |}.

(** A database that answers every query with the two columns of [users]. *)
Definition db : mysql.MySQLDBInfo :=
  {| mysql.Db :=
       {| mysql.QueryContext := fun _ _ =>
            inr (mysql.records [id_column; name_column] None) |} |}.

(** A database whose rows fail to scan at the second record. *)
Definition broken : mysql.MySQLDBInfo :=
  {| mysql.Db :=
       {| mysql.QueryContext := fun _ _ =>
            inr (mysql.records_then [id_column]
                   (mysql.SqlMore (inl (ExtError "converting NULL to string"))
                      (mysql.records [name_column] None))) |} |}.

End DemoDb.

(** More fixtures for the handlers. *)
Module DemoMore.

(** A reader that refuses every scan. *)
Definition refusing : Reader :=
  {| GetRowByKey := fun out _ _ _ => (out, false, None);
     GetRowsByKeyPrefix := fun _ _ _ => inl (ExtError "ldb unavailable");
     GetLedgerLatency := (0, None) |}.

(** A reader that finds Bob, whose scans end with an iteration error after
    two rows, and whose replica lags by three seconds. *)
Definition finding : Reader :=
  {| GetRowByKey := fun _ _ _ _ => (Demo.row 42 "Bob", true, None);
     GetRowsByKeyPrefix := fun _ _ _ =>
       inr (cursor_of Demo.two_rows (Some (ExtError "connection reset")));
     GetLedgerLatency := (3 * time.Second, None) |}.

Definition sidecar (rd : Reader) (max : Z) : Sidecar :=
  New (Config.mk "localhost:1331" rd max).

(** The request of [Demo.request] as another caller sends it. *)
Definition other_caller (body : string) : Request :=
  {| URL := "/get-rows-by-key-prefix/family/table?trace=1";
     UserAgent := "Go-http-client/1.1";
     Vars := {[ "familyName" := "family"; "tableName" := "table" ]};
     Body := body |}.

(** A database that refuses every query. *)
Definition refusing_db : mysql.MySQLDBInfo :=
  {| mysql.Db :=
       {| mysql.QueryContext := fun _ _ => inl (ExtError "connection refused") |} |}.

End DemoMore.

(** * Properties *)

(** ** Key codec *)

Lemma keysToInterface_from (keys : list Key.t) (acc : list iface) :
  fold_left (fun res k => res ++ [Key.ToValue k]) keys acc
  = acc ++ map Key.ToValue keys.
Proof.
  revert acc; induction keys as [|k keys IH]; intros acc; simpl.
  - now rewrite app_nil_r.
  - rewrite IH, <- app_assoc. reflexivity.
Qed.

Lemma keysToInterface_map (keys : list Key.t) :
  keysToInterface keys = map Key.ToValue keys.
Proof. unfold keysToInterface. now rewrite keysToInterface_from. Qed.

(** C1, as stated: every segment resolves as [Key.resolve_spec] says, so an
    empty binary payload gives way to the scalar. This fails on a segment
    whose payload is present but of length zero (what the JSON decoder
    produces for an empty base64 string): the code returns the empty byte
    slice, not the scalar. *)
Lemma ToValue_empty_binary_counterexample :
  ~ (forall k : Key.t, Key.ToValue k = Key.resolve_spec k).
Proof.
  intros H.
  specialize (H (Key.mk (String_ "a") (Some []))).
  discriminate H.
Qed.

(** C1, amended: a segment resolves to its binary payload whenever the
    payload is present (non-nil), also when it has length zero, and to its
    scalar value (possibly [Nil]) otherwise. Hence the code agrees with the
    specification's rule everywhere except on a present payload of length
    zero, where it yields the empty byte slice. *)
Theorem ToValue_binary_when_present (k : Key.t) :
  Key.ToValue k =
    match Key.Binary k with
    | Some [] => Bytes []
    | _ => Key.resolve_spec k
    end.
Proof.
  unfold Key.ToValue, Key.resolve_spec.
  destruct (Key.Binary k) as [[|x b]|]; reflexivity.
Qed.

(** C9: the positional arguments have the length of the key list, and the
    i-th argument is the resolution of the i-th segment. *)
Theorem keysToInterface_preserves_order (keys : list Key.t) :
  length (keysToInterface keys) = length keys /\
  forall i : nat, keysToInterface keys !! i = Key.ToValue <$> (keys !! i).
Proof.
  rewrite keysToInterface_map. split.
  - apply length_map.
  - intros i. apply list_lookup_fmap.
Qed.

(** ** The scan loop *)

(** Turns the boolean comparisons of the limit check into propositions. *)
Ltac zbool :=
  repeat match goal with
  | H : (_ >? _) = true |- _ => apply Z.gtb_lt in H
  | H : (_ >? _) = false |- _ => rewrite Z.gtb_ltb in H; apply Z.ltb_ge in H
  end.

Lemma Scan_fresh (row : Row) : Scan (inr row) ∅ = (row, None).
Proof. unfold Scan. now rewrite (right_id ∅ (∪) row). Qed.

Lemma yielded_cursor_of (rs : list Row) (err : option ext_error) :
  yielded (cursor_of rs err) = rs.
Proof. induction rs as [|row rs IH]; simpl; [reflexivity | now rewrite IH]. Qed.

Lemma filter_cursor_fetches (n : nat) :
  List.filter is_cursor_call (fetches n) = fetches n.
Proof.
  induction n as [|n IH]; [reflexivity|].
  change (fetches (S n)) with ([RowsNext true; RowsScan] ++ fetches n).
  rewrite List.filter_app, IH. reflexivity.
Qed.

Section Loop.

Variable N : Z.

(** The loop never touches the response. *)
Lemma rowsLoop_resp (rows : Rows) (res : list iface) (w : World) :
  resp (snd (rowsLoop N rows res w)) = resp w.
Proof.
  revert res w; induction rows as [err | item rest IH]; intros res w.
  - reflexivity.
  - simpl. unfold bind, emit, ret. simpl.
    destruct item as [e | row]; simpl; [reflexivity|].
    destruct ((N >? 0) && _); simpl; [reflexivity|].
    rewrite IH. reflexivity.
Qed.

(** The loop only fetches. *)
Lemma rowsLoop_trace (rows : Rows) (res : list iface) (w : World) :
  exists evs : list Event,
    trace (snd (rowsLoop N rows res w)) = trace w ++ evs /\
    forallb is_fetch evs = true.
Proof.
  revert res w; induction rows as [err | item rest IH]; intros res w.
  - exists [RowsNext false]. split; reflexivity.
  - simpl. unfold bind, emit, ret. simpl.
    destruct item as [e | row]; simpl.
    + exists [RowsNext true; RowsScan]. rewrite <- app_assoc. split; reflexivity.
    + destruct ((N >? 0) && _); simpl.
      * exists [RowsNext true; RowsScan]. rewrite <- app_assoc. split; reflexivity.
      * match goal with |- context [rowsLoop N rest ?r ?w'] =>
          destruct (IH r w') as (evs & Ht & Hf) end.
        exists ([RowsNext true; RowsScan] ++ evs). rewrite Ht. simpl.
        rewrite <- !app_assoc. split; [reflexivity | exact Hf].
Qed.

(** An error formatted by the sidecar leaves the loop only when the limit
    is armed and more than [N] rows have been accumulated. *)
Lemma rowsLoop_Formatted (rows : Rows) (res : list iface) (w : World) (msg : string) :
  fst (rowsLoop N rows res w) = inl (Formatted msg) ->
  0 < N /\ N < Z.of_nat (length res + length (yielded rows)) /\
  Formatted msg = maxRowsExceeded N.
Proof.
  revert res w; induction rows as [err | item rest IH]; intros res w.
  - discriminate.
  - simpl. unfold bind, emit, ret. simpl.
    destruct item as [e | row]; simpl; [discriminate|].
    destruct (N >? 0) eqn:Hpos; simpl.
    + destruct (_ >? N) eqn:Hgt; simpl.
      * intros [= <-]. rewrite length_app in Hgt. simpl in Hgt. zbool.
        split; [lia|]. split; [lia | reflexivity].
      * intros H. apply IH in H. rewrite length_app in H. simpl in H. zbool.
        destruct H as (H0 & H1 & H2). split; [lia|]. split; [lia | exact H2].
    + intros H. apply IH in H. zbool. lia.
Qed.

(** When the limit is armed and the cursor yields enough rows to pass it,
    the loop stops right after the append that passes it. *)
Lemma rowsLoop_exceeds (rows : Rows) (res : list iface) (w : World) :
  0 < N ->
  Z.of_nat (length res) <= N ->
  N < Z.of_nat (length res + length (yielded rows)) ->
  rowsLoop N rows res w =
    (inl (maxRowsExceeded N),
     {| resp := resp w;
        trace := trace w ++ fetches (Z.to_nat N + 1 - length res) |}).
Proof.
  intros HN. revert res w; induction rows as [err | item rest IH]; intros res w Hres Hy.
  - simpl in Hy. lia.
  - destruct item as [e | row]; [simpl in Hy; lia|].
    simpl. unfold bind, emit, ret. simpl.
    assert (Hpos : (N >? 0) = true) by (apply Z.gtb_lt; lia). rewrite Hpos. simpl.
    rewrite length_app. simpl.
    destruct (_ >? N) eqn:Hgt; simpl; zbool.
    + replace (Z.to_nat N + 1 - length res)%nat with 1%nat by lia.
      rewrite <- app_assoc. reflexivity.
    + rewrite IH; simpl.
      * rewrite length_app. simpl. rewrite <- !app_assoc.
        replace (Z.to_nat N + 1 - length res)%nat
          with (S (Z.to_nat N + 1 - (length res + 1)))%nat by lia.
        reflexivity.
      * rewrite length_app. simpl. lia.
      * rewrite length_app. simpl. simpl in Hy. lia.
Qed.

(** When the limit is not armed, or is not passed, a cursor that scans every
    record and ends without error is read to its end. *)
Lemma rowsLoop_all (rs : list Row) (err : option ext_error) (res : list iface) (w : World) :
  N <= 0 \/ Z.of_nat (length res + length rs) <= N ->
  rowsLoop N (cursor_of rs err) res w =
    (inr (res ++ (Map <$> rs), RowsEnd err),
     {| resp := resp w;
        trace := trace w ++ fetches (length rs) ++ [RowsNext false] |}).
Proof.
  revert res w; induction rs as [|row rs IH]; intros res w HN.
  - simpl. unfold bind, emit, ret. simpl. now rewrite app_nil_r.
  - change (cursor_of (row :: rs) err) with (RowsMore (inr row) (cursor_of rs err)).
    cbn [rowsLoop]. unfold bind, emit, ret. cbv zeta. rewrite Scan_fresh.
    cbn [resp trace].
    replace ((N >? 0) && (Z.of_nat (length (res ++ [Map row])) >? N)) with false.
    2:{ rewrite length_app. simpl. simpl in HN. symmetry.
        apply andb_false_iff. rewrite !Z.gtb_ltb, !Z.ltb_ge.
        destruct HN; [left | right]; lia. }
    rewrite IH.
    + cbn [resp trace]. rewrite <- !app_assoc. reflexivity.
    + rewrite length_app. simpl. simpl in HN. lia.
Qed.

End Loop.

(** A normal exit of the loop means every record was scanned and appended. *)
Lemma rowsLoop_inr (N : Z) (rows : Rows) (res : list iface) (w : World)
    (res' : list iface) (rows' : Rows) :
  fst (rowsLoop N rows res w) = inr (res', rows') ->
  exists (rs : list Row) (err : option ext_error),
    rows = cursor_of rs err /\ res' = res ++ (Map <$> rs) /\ rows' = RowsEnd err.
Proof.
  revert res w; induction rows as [err | item rest IH]; intros res w.
  - simpl. intros [= <- <-]. exists [], err. now rewrite app_nil_r.
  - destruct item as [e | row]; [discriminate|].
    cbn [rowsLoop]. unfold bind, emit, ret. cbv zeta. rewrite Scan_fresh.
    destruct ((N >? 0) && _); [discriminate|].
    intros H. apply IH in H. destruct H as (rs & err & -> & -> & ->).
    exists (row :: rs), err. rewrite <- app_assoc. repeat split.
Qed.

(** ** The error translator *)

(** Answering an error on a response nothing was written to. *)
Lemma http_Error_untouched (msg : string) (code : Z) (w : World) :
  wroteHeader (resp w) = None ->
  body (resp w) = [] ->
  let w' := snd (http_Error msg code w) in
  StatusCode (Result (resp w')) = code /\
  ResponseBody (Result (resp w')) = [TextLine msg] /\
  trace w' = trace w ++
    [ResponseSetHeader "Content-Type" "text/plain; charset=utf-8";
     ResponseSetHeader "X-Content-Type-Options" "nosniff";
     ResponseWriteHeader code; ResponseWrite (TextLine msg)].
Proof.
  intros Hc Hb. unfold http_Error, Header_Set, WriteHeader, Write, modify_resp,
    bind, emit, ret, Result, commit. simpl. rewrite Hc. simpl. rewrite Hb.
  rewrite <- !app_assoc. repeat split.
Qed.

Lemma forallb_fetch_no_response (l : list Event) :
  forallb is_fetch l = true -> forallb (fun e => negb (is_response_call e)) l = true.
Proof.
  induction l as [|e l IH]; simpl; [reflexivity|].
  intros [He Hl]%andb_true_iff. rewrite IH by exact Hl.
  destruct e; try discriminate He; reflexivity.
Qed.

Lemma no_fetch_after_response_app (l1 l2 : list Event) :
  forallb (fun e => negb (is_response_call e)) l1 = true ->
  no_fetch_after_response (l1 ++ l2) = no_fetch_after_response l2.
Proof.
  induction l1 as [|e l1 IH]; simpl; [reflexivity|].
  intros [He Hl]%andb_true_iff. apply negb_true_iff in He. rewrite He. now apply IH.
Qed.

Lemma count_app (p : Event -> bool) (l1 l2 : list Event) :
  count p (l1 ++ l2) = (count p l1 + count p l2)%nat.
Proof. unfold count. now rewrite List.filter_app, length_app. Qed.

Lemma count_fetch_only (p : Event -> bool) (l : list Event) :
  (forall e, is_fetch e = true -> p e = false) ->
  forallb is_fetch l = true -> count p l = 0%nat.
Proof.
  intros Hp. unfold count. induction l as [|e l IH]; simpl; [reflexivity|].
  intros [He Hl]%andb_true_iff. rewrite (Hp e He). now apply IH.
Qed.

(** ** float64: [Seconds] never overflows

    The primitive operations are specified by [SpecFloat]; a bound on the
    magnitude of a result (the position of its leading bit) shows that no
    step of [time.Seconds] produces an infinity or a NaN. *)

Module float64.

Lemma digits2_size (p : positive) : digits2_pos p = Pos.size p.
Proof. induction p; simpl; congruence. Qed.

Lemma Zdigits2_nonneg (m : Z) : 0 <= m -> 0 <= Zdigits2 m.
Proof. destruct m; simpl; lia. Qed.

Lemma Zdigits2_pos_bounds (p : positive) :
  2 ^ (Zpos (digits2_pos p) - 1) <= Zpos p < 2 ^ Zpos (digits2_pos p).
Proof.
  rewrite digits2_size. split.
  - pose proof (Pos.size_le p) as H.
    apply Pos2Z.pos_le_pos in H. rewrite Pos2Z.inj_pow in H.
    replace (Zpos (Pos.size p)) with (Zpos (Pos.size p) - 1 + 1) in H by lia.
    rewrite Z.pow_add_r in H by lia. change (Zpos p~0) with (2 * Zpos p) in H. lia.
  - pose proof (Pos.size_gt p) as H.
    apply Pos2Z.pos_lt_pos in H. now rewrite Pos2Z.inj_pow in H.
Qed.

Lemma Zdigits2_lt (m : Z) : 0 <= m -> m < 2 ^ Zdigits2 m.
Proof.
  destruct m as [|p|p]; intros Hm; [reflexivity | | lia].
  apply Zdigits2_pos_bounds.
Qed.

Lemma Zdigits2_le (m j : Z) : 0 <= j -> 0 <= m < 2 ^ j -> Zdigits2 m <= j.
Proof.
  intros Hj [Hm Hlt]. destruct m as [|p|p]; [simpl; lia | | lia].
  pose proof (Zdigits2_pos_bounds p) as [Hlo _]. simpl.
  assert (H : 2 ^ (Zpos (digits2_pos p) - 1) < 2 ^ j) by lia.
  apply Z.pow_lt_mono_r_iff in H; lia.
Qed.


Lemma shr_1_m (mrs : shr_record) :
  0 <= shr_m mrs -> shr_m (shr_1 mrs) = shr_m mrs / 2.
Proof.
  destruct mrs as [m r s]. simpl. intros Hm.
  rewrite <- Z.div2_div.
  destruct m as [|[p|p|]|p]; try reflexivity; lia.
Qed.

Lemma iter_shr_m (p : positive) (mrs : shr_record) :
  0 <= shr_m mrs ->
  shr_m (SpecFloat.iter_pos shr_1 p mrs) = shr_m mrs / 2 ^ Zpos p.
Proof.
  revert mrs. induction p as [p IH | p IH |]; intros mrs Hm; simpl SpecFloat.iter_pos.
  - assert (H1 : 0 <= shr_m (shr_1 mrs)).
    { rewrite shr_1_m by exact Hm. apply Z.div_pos; lia. }
    assert (H2 : 0 <= shr_m (SpecFloat.iter_pos shr_1 p (shr_1 mrs))).
    { rewrite IH by exact H1. apply Z.div_pos; lia. }
    rewrite IH by exact H2. rewrite IH by exact H1. rewrite shr_1_m by exact Hm.
    rewrite !Z.div_div by lia.
    assert (E : 2 ^ Zpos p~1 = 2 * 2 ^ Zpos p * 2 ^ Zpos p).
    { rewrite <- Z.mul_assoc, <- Z.pow_add_r, <- Z.pow_succ_r by lia. f_equal. lia. }
    rewrite E. f_equal. ring.
  - assert (H1 : 0 <= shr_m (SpecFloat.iter_pos shr_1 p mrs)).
    { rewrite IH by exact Hm. apply Z.div_pos; lia. }
    rewrite IH by exact H1. rewrite IH by exact Hm.
    rewrite Z.div_div by lia.
    assert (E : 2 ^ Zpos p~0 = 2 ^ Zpos p * 2 ^ Zpos p).
    { rewrite <- Z.pow_add_r by lia. f_equal. lia. }
    rewrite E. f_equal.
  - rewrite shr_1_m by exact Hm. reflexivity.
Qed.

Lemma shr_record_of_loc_m (m : Z) (l : location) : shr_m (shr_record_of_loc m l) = m.
Proof. destruct l as [|[]]; reflexivity. Qed.

Lemma fexp_eq (x : Z) : fexp prec emax x = Z.max (x - 53) (-1074).
Proof. reflexivity. Qed.

(** After the shift to the exponent [fexp]: a non-negative mantissa no
    larger in magnitude, at the exponent [max e (fexp ...)]. *)
Lemma shr_fexp_bound (m e : Z) (l : location) (k : Z) :
  0 <= m -> Zdigits2 m + e <= k -> -1074 <= k ->
  0 <= shr_m (fst (shr_fexp prec emax m e l)) /\
  Zdigits2 (shr_m (fst (shr_fexp prec emax m e l))) + snd (shr_fexp prec emax m e l) <= k /\
  snd (shr_fexp prec emax m e l) = Z.max e (fexp prec emax (Zdigits2 m + e)).
Proof.
  intros Hm Hk Hmin. unfold shr_fexp, shr. rewrite fexp_eq.
  pose proof (Zdigits2_nonneg m Hm) as Hd.
  destruct (Z.max (Zdigits2 m + e - 53) (-1074) - e) as [|n|n] eqn:Hn; cbn [fst snd];
    rewrite ?shr_record_of_loc_m; try (split; [exact Hm|]; split; lia).
  rewrite iter_shr_m by (rewrite shr_record_of_loc_m; exact Hm).
  rewrite shr_record_of_loc_m.
  assert (Hq : 0 <= m / 2 ^ Zpos n) by (apply Z.div_pos; lia).
  split; [exact Hq|]. split; [|lia].
  pose proof (Zdigits2_lt m Hm) as Hlt.
  destruct (Z_le_gt_dec (Zpos n) (Zdigits2 m)) as [Hle | Hgt].
  - assert (Hq' : m / 2 ^ Zpos n < 2 ^ (Zdigits2 m - Zpos n)).
    { apply Z.div_lt_upper_bound; [lia|].
      rewrite <- Z.pow_add_r by lia.
      now replace (Zpos n + (Zdigits2 m - Zpos n)) with (Zdigits2 m) by lia. }
    pose proof (Zdigits2_le (m / 2 ^ Zpos n) (Zdigits2 m - Zpos n)). lia.
  - assert (Hz : m / 2 ^ Zpos n = 0).
    { apply Z.div_small. split; [exact Hm|].
      apply Z.lt_le_trans with (2 ^ Zdigits2 m); [exact Hlt|].
      apply Z.pow_le_mono_r; lia. }
    rewrite Hz. simpl. lia.
Qed.

Lemma round_nearest_even_bound (m : Z) (l : location) :
  0 <= m ->
  0 <= round_nearest_even m l /\
  Zdigits2 (round_nearest_even m l) <= Zdigits2 m + 1.
Proof.
  intros Hm. pose proof (Zdigits2_lt m Hm) as Hlt.
  pose proof (Zdigits2_nonneg m Hm) as Hd.
  assert (Hr : m <= round_nearest_even m l <= m + 1).
  { destruct l as [|[]]; simpl; try lia. destruct (Z.even m); lia. }
  split; [lia|]. apply Zdigits2_le; [lia|]. split; [lia|].
  rewrite Z.pow_add_r by lia. lia.
Qed.

(** Rounding a non-negative mantissa of magnitude at most [k] gives zero
    or a finite number of magnitude at most [k + 1]. *)
Lemma binary_round_aux_mag (sx : bool) (mx ex : Z) (lx : location) (k : Z) :
  0 <= mx -> Zdigits2 mx + ex <= k -> ex <= 971 -> -1074 <= k -> k + 1 <= 1024 ->
  mag_le (binary_round_aux prec emax sx mx ex lx) (k + 1).
Proof.
  intros Hm Hk Hex Hmin Hmax. unfold binary_round_aux.
  destruct (shr_fexp_bound mx ex lx k Hm Hk Hmin) as (H0 & H1 & H2).
  destruct (shr_fexp prec emax mx ex lx) as [mrs' e']. cbn [fst snd] in H0, H1, H2.
  destruct (round_nearest_even_bound (shr_m mrs') (loc_of_shr_record mrs') H0)
    as (Hr0 & Hr1).
  set (m1 := round_nearest_even (shr_m mrs') (loc_of_shr_record mrs')) in *.
  destruct (shr_fexp_bound m1 e' loc_Exact (k + 1) Hr0) as (H3 & H4 & H5); [lia | lia |].
  destruct (shr_fexp prec emax m1 e' loc_Exact) as [mrs'' e'']. cbn [fst snd] in H3, H4, H5.
  rewrite fexp_eq in H2, H5.
  pose proof (Zdigits2_nonneg mx Hm). pose proof (Zdigits2_nonneg m1 Hr0).
  destruct (shr_m mrs'') as [|p|p]; [exact I | | lia].
  replace (e'' <=? emax - prec) with true.
  - simpl. simpl in H4. exact H4.
  - symmetry. apply Z.leb_le. change (emax - prec) with 971. lia.
Qed.


Lemma iter_xO_Z (p d : positive) : Zpos (Pos.iter xO p d) = Zpos p * 2 ^ Zpos d.
Proof.
  induction d as [|d IH] using Pos.peano_ind.
  - simpl. lia.
  - rewrite Pos.iter_succ, Pos2Z.inj_xO, IH, Pos2Z.inj_succ, Z.pow_succ_r by lia. ring.
Qed.

Lemma iter_xO_digits (p d : positive) :
  Zpos (digits2_pos (Pos.iter xO p d)) = Zpos (digits2_pos p) + Zpos d.
Proof.
  induction d as [|d IH] using Pos.peano_ind.
  - simpl. lia.
  - rewrite Pos.iter_succ. simpl digits2_pos. rewrite Pos2Z.inj_succ, IH. lia.
Qed.

(** Aligning a mantissa to a smaller exponent keeps its value and magnitude. *)
Lemma shl_align_spec (mx : positive) (ex ex' : Z) :
  snd (shl_align mx ex ex') = Z.min ex ex' /\
  Zpos (fst (shl_align mx ex ex')) = Zpos mx * 2 ^ (ex - Z.min ex ex') /\
  Zpos (digits2_pos (fst (shl_align mx ex ex'))) + snd (shl_align mx ex ex')
    = Zpos (digits2_pos mx) + ex.
Proof.
  unfold shl_align. destruct (ex' - ex) as [|d|d] eqn:Hd; cbn [fst snd].
  - replace (Z.min ex ex') with ex by lia. rewrite Z.sub_diag. simpl. lia.
  - replace (Z.min ex ex') with ex by lia. rewrite Z.sub_diag. simpl. lia.
  - replace (Z.min ex ex') with ex' by lia.
    rewrite iter_xO_Z, iter_xO_digits.
    replace (ex - ex') with (Zpos d) by lia. lia.
Qed.

Lemma binary_round_mag (sx : bool) (mx : positive) (ex k : Z) :
  Zpos (digits2_pos mx) + ex <= k -> -1074 <= k -> k + 1 <= 1024 ->
  mag_le (binary_round prec emax sx mx ex) (k + 1).
Proof.
  intros Hk Hmin Hmax. unfold binary_round.
  destruct (shl_align_spec mx ex (fexp prec emax (Zpos (digits2_pos mx) + ex)))
    as (He & _ & Hd).
  destruct (shl_align mx ex _) as [mz ez]. cbn [fst snd] in He, Hd.
  rewrite fexp_eq in He.
  apply binary_round_aux_mag; simpl; lia.
Qed.

Lemma binary_normalize_mag (m e k : Z) (szero : bool) :
  Zdigits2 m + e <= k -> -1074 <= k -> k + 1 <= 1024 ->
  mag_le (binary_normalize prec emax m e szero) (k + 1).
Proof.
  intros Hk Hmin Hmax. destruct m as [|p|p]; simpl binary_normalize.
  - exact I.
  - now apply binary_round_mag.
  - now apply binary_round_mag.
Qed.

Lemma mag_le_weaken (x : spec_float) (k k' : Z) : k <= k' -> mag_le x k -> mag_le x k'.
Proof. destruct x; simpl; lia. Qed.

Lemma mag_le_opp (x : spec_float) (k : Z) : mag_le x k -> mag_le (SFopp x) k.
Proof. destruct x; simpl; trivial. Qed.

Lemma Zdigits2_abs (m : Z) : Zdigits2 m = Zdigits2 (Z.abs m).
Proof. destruct m; reflexivity. Qed.

(** The sum of two numbers of magnitude at most [k] has magnitude at most
    [k + 2]. *)
Lemma SFadd_mag (x y : spec_float) (k : Z) :
  mag_le x k -> mag_le y k -> -1074 <= k -> k + 2 <= 1024 ->
  mag_le (SFadd prec emax x y) (k + 2).
Proof.
  intros Hx Hy Hmin Hmax.
  destruct x as [sx|sx| |sx mx ex], y as [sy|sy| |sy my ey]; simpl in Hx, Hy;
    try contradiction; unfold SFadd.
  - destruct sx, sy; exact I.
  - simpl. lia.
  - simpl. lia.
  - destruct (shl_align_spec mx ex (Z.min ex ey)) as (_ & Hvx & _).
    destruct (shl_align_spec my ey (Z.min ex ey)) as (_ & Hvy & _).
    set (ez := Z.min ex ey) in *.
    replace (Z.min ex ez) with ez in Hvx by lia.
    replace (Z.min ey ez) with ez in Hvy by lia.
    set (a := Zpos (fst (shl_align mx ex ez))) in *.
    set (b := Zpos (fst (shl_align my ey ez))) in *.
    replace (k + 2) with (k + 1 + 1) by lia.
    apply binary_normalize_mag; try lia.
    assert (Ha : 0 < a < 2 ^ (k - ez)).
    { split; [subst a; lia|]. rewrite Hvx.
      pose proof (Zdigits2_pos_bounds mx) as [_ Hlt].
      apply Z.lt_le_trans with (2 ^ Zpos (digits2_pos mx) * 2 ^ (ex - ez)).
      - apply Z.mul_lt_mono_pos_r; [apply Z.pow_pos_nonneg; lia | exact Hlt].
      - rewrite <- Z.pow_add_r by lia. apply Z.pow_le_mono_r; lia. }
    assert (Hb : 0 < b < 2 ^ (k - ez)).
    { split; [subst b; lia|]. rewrite Hvy.
      pose proof (Zdigits2_pos_bounds my) as [_ Hlt].
      apply Z.lt_le_trans with (2 ^ Zpos (digits2_pos my) * 2 ^ (ey - ez)).
      - apply Z.mul_lt_mono_pos_r; [apply Z.pow_pos_nonneg; lia | exact Hlt].
      - rewrite <- Z.pow_add_r by lia. apply Z.pow_le_mono_r; lia. }
    assert (Hkz : 0 <= k - ez).
    { destruct (Z_lt_le_dec (k - ez) 0) as [Hneg|]; [|assumption].
      rewrite (Z.pow_neg_r 2 (k - ez) Hneg) in Ha. lia. }
    rewrite Zdigits2_abs.
    assert (Hs : Zdigits2 (Z.abs (cond_Zopp sx a + cond_Zopp sy b)) <= k - ez + 1).
    { apply Zdigits2_le; [lia|]. split; [lia|].
      rewrite Z.pow_add_r by lia. destruct sx, sy; simpl; lia. }
    lia.
Qed.


(** Dividing a number of magnitude at most [k] by a normal number of
    exponent [ey]. *)
Lemma SFdiv_mag (x : spec_float) (sy : bool) (my : positive) (ey k : Z) :
  mag_le x k ->
  Zpos (digits2_pos my) = 53 ->
  -1074 <= k - ey - 52 -> k - ey - 51 <= 1024 ->
  mag_le (SFdiv prec emax x (S754_finite sy my ey)) (k - ey - 51).
Proof.
  intros Hx Hdy Hmin Hmax.
  destruct x as [sx|sx| |sx mx ex]; simpl in Hx; try contradiction; [exact I|].
  unfold SFdiv, SFdiv_core_binary. cbn [Zdigits2]. rewrite Hdy, fexp_eq.
  set (d1 := Zpos (digits2_pos mx)) in *.
  set (e' := Z.min (Z.max (d1 + ex - (53 + ey) - 53) (-1074)) (ex - ey)).
  set (s := ex - ey - e').
  assert (Hs : 0 <= s) by (subst s e'; lia).
  set (m' := match s with
             | 0 => Zpos mx
             | Zpos _ => Z.shiftl (Zpos mx) s
             | Zneg _ => 0
             end).
  assert (Hm' : m' = Zpos mx * 2 ^ s).
  { subst m'. destruct s as [|p|p] eqn:Es; [simpl; lia | | lia].
    apply Z.shiftl_mul_pow2. lia. }
  pose proof (Zdigits2_pos_bounds mx) as [_ Hmx]. fold d1 in Hmx.
  pose proof (Zdigits2_pos_bounds my) as [Hmy _]. rewrite Hdy in Hmy.
  assert (Hm'lt : 0 < m' < 2 ^ (d1 + s)).
  { rewrite Hm', Z.pow_add_r by lia.
    assert (0 < 2 ^ s) by (apply Z.pow_pos_nonneg; lia). nia. }
  destruct (Z.div_eucl m' (Zpos my)) as [q r] eqn:Eq.
  assert (Hq : q = m' / Zpos my) by (unfold Z.div; now rewrite Eq).
  assert (Hq0 : 0 <= q) by (rewrite Hq; apply Z.div_pos; lia).
  assert (Hqm : q * 2 ^ 52 < 2 ^ (d1 + s)).
  { pose proof (Z.mul_div_le m' (Zpos my) ltac:(lia)) as Hle. rewrite <- Hq in Hle.
    change (53 - 1) with 52 in Hmy. nia. }
  replace (k - ey - 51) with (k - ey - 52 + 1) by lia.
  apply binary_round_aux_mag; try lia.
  destruct (Z_le_gt_dec 52 (d1 + s)) as [Hge | Hlt].
  - assert (Hqlt : q < 2 ^ (d1 + s - 52)).
    { replace (d1 + s) with (d1 + s - 52 + 52) in Hqm by lia.
      rewrite Z.pow_add_r in Hqm by lia.
      assert (0 < 2 ^ 52) by (apply Z.pow_pos_nonneg; lia). nia. }
    pose proof (Zdigits2_le q (d1 + s - 52) ltac:(lia) ltac:(lia)). subst s. lia.
  - assert (Hz : q = 0).
    { assert (2 ^ (d1 + s) <= 2 ^ 52) by (apply Z.pow_le_mono_r; lia).
      assert (0 < 2 ^ 52) by (apply Z.pow_pos_nonneg; lia). nia. }
    rewrite Hz. simpl. subst e'. lia.
Qed.

(** A finite result, read off the primitive float. *)
Lemma is_finite_of_mag (f : float) (k : Z) :
  mag_le (Prim2SF f) k -> PrimFloat.is_finite f = true.
Proof.
  unfold PrimFloat.is_finite, PrimFloat.is_nan, PrimFloat.is_infinity.
  rewrite !FloatAxioms.eqb_spec, FloatAxioms.abs_spec.
  change (Prim2SF infinity) with (S754_infinity false).
  destruct (Prim2SF f) as [s|s| |s m e]; simpl; try contradiction; intros _.
  - reflexivity.
  - unfold SFeqb, SFcompare. rewrite Z.compare_refl, Pos.compare_cont_refl.
    destruct s; reflexivity.
Qed.


Lemma of_uint63_mag (n j : Z) :
  0 <= j <= 62 -> 0 <= n < 2 ^ j ->
  mag_le (Prim2SF (PrimFloat.of_uint63 (Uint63.of_Z n))) (j + 1).
Proof.
  intros Hj Hn.
  assert (Hw : 2 ^ j <= 2 ^ 62) by (apply Z.pow_le_mono_r; lia).
  change (2 ^ 62) with 4611686018427387904 in Hw.
  rewrite FloatAxioms.of_uint63_spec, Uint63.of_Z_spec.
  rewrite Z.mod_small by (change wB with 9223372036854775808; lia).
  apply binary_normalize_mag; try lia.
  pose proof (Zdigits2_le n j). lia.
Qed.

Lemma float64_of_int64_mag (n j : Z) :
  0 <= j <= 62 -> - 2 ^ j < n < 2 ^ j ->
  mag_le (Prim2SF (time.float64_of_int64 n)) (j + 1).
Proof.
  intros Hj Hn. unfold time.float64_of_int64.
  destruct (n <? 0) eqn:Hs.
  - apply Z.ltb_lt in Hs. rewrite FloatAxioms.opp_spec. apply mag_le_opp.
    apply of_uint63_mag; lia.
  - apply Z.ltb_ge in Hs. apply of_uint63_mag; lia.
Qed.

(** [Seconds] of an [int64] duration is a finite [float64]. *)
Theorem Seconds_finite (d : Z) :
  - 2 ^ 63 <= d < 2 ^ 63 -> PrimFloat.is_finite (time.Seconds d) = true.
Proof.
  intros Hd. change (2 ^ 63) with 9223372036854775808 in Hd.
  apply is_finite_of_mag with (k := 35 + 2). unfold time.Seconds.
  rewrite FloatAxioms.add_spec, FloatAxioms.div_spec.
  change (Prim2SF 1e9%float) with (S754_finite false 8388608000000000 (-23)).
  pose proof (Z.quot_rem' d time.Second) as Hqr.
  pose proof (Z.rem_bound_abs d time.Second ltac:(discriminate)) as Hr.
  unfold time.Second in *.
  apply SFadd_mag; try lia.
  - apply (float64_of_int64_mag _ 34); [lia|].
    change (2 ^ 34) with 17179869184. lia.
  - apply mag_le_weaken with (k := 31 - (-23) - 51); [lia|].
    apply SFdiv_mag; try lia; [|reflexivity].
    apply (float64_of_int64_mag _ 30); [lia|].
    change (2 ^ 30) with 1073741824. lia.
Qed.

End float64.

(** ** Handlers *)

(** Closes an equation between worlds up to the bracketing of the trace. *)
Ltac tidy :=
  cbn [fst snd resp trace fresh app]; rewrite <- ?app_assoc; cbn [app]; reflexivity.

Section HandlerProperties.

Variable Decode : string -> ext_error + ReadRequest.

(** What follows the loop in [getRowsByKeyPrefix]. *)
Lemma getRowsByKeyPrefix_acquired (s : Sidecar) (r : Request) (rr : ReadRequest)
    (rows : Rows) (w : World) :
  Decode (Body r) = inr rr ->
  GetRowsByKeyPrefix (reader s) (index (Vars r) "familyName")
    (index (Vars r) "tableName") (keysToInterface (Key rr)) = inr rows ->
  getRowsByKeyPrefix Decode s r w =
    let call := ReaderGetRowsByKeyPrefix (index (Vars r) "familyName")
                  (index (Vars r) "tableName") (keysToInterface (Key rr)) in
    let '(looped, w1) :=
      rowsLoop (maxRows s) rows [] {| resp := resp w; trace := trace w ++ [call] |} in
    let '(err, w2) :=
      match looped with
      | inl e => (Some e, w1)
      | inr (res, rows') =>
          let w1' := {| resp := resp w1; trace := trace w1 ++ [RowsErr] |} in
          match Err rows' with
          | Some e => (Some (Foreign e), w1')
          | None => Encode (Slice res) w1'
          end
      end in
    (err, {| resp := resp w2;
             trace := trace w2 ++
               [RowsClose; StatsObserve "get-rows-by-key-prefix" (UserAgent r)] |}).
Proof.
  intros HD HR.
  unfold getRowsByKeyPrefix, defer, reader_GetRowsByKeyPrefix, observeAPILatency,
    bind, emit, ret.
  cbv zeta. rewrite HD. cbn [fst snd resp trace]. rewrite HR.
  destruct (rowsLoop _ _ _ _) as [[e | [res rows']] w1]; cbn [resp trace].
  - rewrite <- app_assoc. reflexivity.
  - destruct (Err rows'); cbn [resp trace].
    + rewrite <- app_assoc. reflexivity.
    + destruct (Encode _ _) as [err w2]. cbn [resp trace].
      rewrite <- app_assoc. reflexivity.
Qed.

Lemma getRowsByKeyPrefix_decode_error (s : Sidecar) (r : Request) (e : ext_error)
    (w : World) :
  Decode (Body r) = inl e ->
  getRowsByKeyPrefix Decode s r w =
    (Some (Wrapped (Foreign e) "decode body"),
     {| resp := resp w;
        trace := trace w ++ [StatsObserve "get-rows-by-key-prefix" (UserAgent r)] |}).
Proof.
  intros HD. unfold getRowsByKeyPrefix, defer, observeAPILatency, bind, emit, ret.
  cbv zeta. rewrite HD. reflexivity.
Qed.

Lemma getRowsByKeyPrefix_reader_error (s : Sidecar) (r : Request) (rr : ReadRequest)
    (e : ext_error) (w : World) :
  Decode (Body r) = inr rr ->
  GetRowsByKeyPrefix (reader s) (index (Vars r) "familyName")
    (index (Vars r) "tableName") (keysToInterface (Key rr)) = inl e ->
  getRowsByKeyPrefix Decode s r w =
    (Some (Foreign e),
     {| resp := resp w;
        trace := trace w ++
          [ReaderGetRowsByKeyPrefix (index (Vars r) "familyName")
             (index (Vars r) "tableName") (keysToInterface (Key rr));
           StatsObserve "get-rows-by-key-prefix" (UserAgent r)] |}).
Proof.
  intros HD HR.
  unfold getRowsByKeyPrefix, defer, reader_GetRowsByKeyPrefix, observeAPILatency,
    bind, emit, ret.
  cbv zeta. rewrite HD. cbn [fst snd resp trace]. rewrite HR.
  cbn [resp trace]. rewrite <- app_assoc. reflexivity.
Qed.

(** The outcomes of a scan whose cursor was acquired: the handler fails
    and leaves the response untouched, or it has read the cursor to a clean
    end and written the whole list at once. Either way the cursor calls
    before [Close] are fetches, possibly followed by [Err]. *)
Lemma getRowsByKeyPrefix_shape (s : Sidecar) (r : Request) (rr : ReadRequest)
    (rows : Rows) :
  Decode (Body r) = inr rr ->
  GetRowsByKeyPrefix (reader s) (index (Vars r) "familyName")
    (index (Vars r) "tableName") (keysToInterface (Key rr)) = inr rows ->
  exists (evs tail : list Event) (err : option error) (rw : ResponseWriter),
    forallb is_fetch evs = true /\
    getRowsByKeyPrefix Decode s r fresh =
      (err, {| resp := rw;
               trace := (ReaderGetRowsByKeyPrefix (index (Vars r) "familyName")
                           (index (Vars r) "tableName") (keysToInterface (Key rr))
                         :: evs) ++ tail ++
                        [RowsClose;
                         StatsObserve "get-rows-by-key-prefix" (UserAgent r)] |}) /\
    ((exists e, err = Some e /\ rw = resp fresh /\
                (forall msg, e = Formatted msg ->
                   0 < maxRows s /\ maxRows s < Z.of_nat (length (yielded rows))) /\
                (tail = [] \/ tail = [RowsErr])) \/
     (exists rs, err = None /\ rows = cursor_of rs None /\
                 rw = {| header := ∅; wroteHeader := Some (200, ∅);
                         body := [JSONLine (Slice (Map <$> rs))] |} /\
                 tail = [RowsErr; ResponseWrite (JSONLine (Slice (Map <$> rs)))])).
Proof.
  intros HD HR.
  rewrite (getRowsByKeyPrefix_acquired s r rr rows) by assumption. cbv zeta.
  match goal with |- context [rowsLoop ?N ?rows ?res ?w0] =>
    pose proof (rowsLoop_resp N rows res w0) as Hresp;
    destruct (rowsLoop_trace N rows res w0) as (evs & Htr & Hevs);
    pose proof (rowsLoop_Formatted N rows res w0) as Hfmt;
    pose proof (rowsLoop_inr N rows res w0) as Hinr;
    destruct (rowsLoop N rows res w0) as [looped [rw tw]]
  end.
  cbn [fst snd resp trace] in *. subst rw tw. exists evs.
  destruct looped as [e | [res rows']].
  - exists [], (Some e), (resp fresh). split; [exact Hevs|]. split; [tidy|].
    left. exists e. split; [reflexivity|]. split; [reflexivity|]. split; [|now left].
    intros msg ->. destruct (Hfmt msg eq_refl) as (H0 & H1 & _). split; [exact H0|].
    exact H1.
  - destruct (Hinr res rows' eq_refl) as (rs & err & -> & -> & ->).
    cbn [Err app]. destruct err as [e|].
    + exists [RowsErr], (Some (Foreign e)), (resp fresh).
      split; [exact Hevs|]. split; [tidy|].
      left. exists (Foreign e). split; [reflexivity|]. split; [reflexivity|].
      split; [discriminate | now right].
    + unfold Encode, Write, modify_resp, bind, emit, ret. destruct (json_supported _).
      * exists [RowsErr; ResponseWrite (JSONLine (Slice (Map <$> rs)))], None,
          {| header := ∅; wroteHeader := Some (200, ∅);
             body := [JSONLine (Slice (Map <$> rs))] |}.
        split; [exact Hevs|]. split.
        -- tidy.
        -- right. exists rs. split; [reflexivity|]. split; [reflexivity|].
           split; reflexivity.
      * exists [RowsErr], (Some (Foreign (ExtError "json: unsupported value"))),
          (resp fresh).
        split; [exact Hevs|]. split; [tidy|].
        left. eexists. split; [reflexivity|]. split; [reflexivity|].
        split; [discriminate | now right].
Qed.

(** Running the translator after a handler. *)
Lemma handleErr_run (fn : Request -> M (option error)) (r : Request) (w : World) :
  snd (handleErr fn r w) =
    match fn r w with
    | (Some e, w') =>
        snd (http_Error (Error e) 500
               {| resp := resp w'; trace := trace w' ++ [EventsLog (Error e) (URL r)] |})
    | (None, w') => w'
    end.
Proof.
  unfold handleErr, bind, emit, ret.
  destruct (fn r w) as [[e|] w']; reflexivity.
Qed.

(** The status and body after the translator answered on an untouched
    response. *)
Ltac answered :=
  match goal with
  | |- context [http_Error ?m ?c ?w] =>
      let H1 := fresh in let H2 := fresh in
      destruct (http_Error_untouched m c w eq_refl eq_refl) as (H1 & H2 & _);
      split; [exact H1 | exact H2]
  end.

(** C2: with a ceiling [N >= 1], a decodable body and an acquired cursor,
    the scan handler fails with the row-limit error naming [N] exactly when
    the cursor yields more than [N] rows; in that case exactly [N + 1]
    records were fetched and decoded before the abort and the response is
    status 500 with the error text; and when the cursor yields at most [N]
    (encodable) rows and ends cleanly, the response is status 200 with the
    JSON array of those rows in cursor order. *)
Theorem scan_row_limit (s : Sidecar) (r : Request) (rr : ReadRequest) (rows : Rows) :
  1 <= maxRows s ->
  Decode (Body r) = inr rr ->
  GetRowsByKeyPrefix (reader s) (index (Vars r) "familyName")
    (index (Vars r) "tableName") (keysToInterface (Key rr)) = inr rows ->
  let N := maxRows s in
  let out := getRowsByKeyPrefix Decode s r fresh in
  let rsp := response Decode s GetRowsByKeyPrefixRoute r in
  (fst out = Some (maxRowsExceeded N) <-> N < Z.of_nat (length (yielded rows))) /\
  (N < Z.of_nat (length (yielded rows)) ->
     List.filter is_cursor_call (trace (snd out))
       = fetches (Z.to_nat N + 1) ++ [RowsClose] /\
     StatusCode rsp = 500 /\
     ResponseBody rsp
       = [TextLine ("max row count (" +:+ fmt.d N +:+ ") exceeded")]) /\
  (forall rs : list Row,
     rows = cursor_of rs None ->
     Z.of_nat (length rs) <= N ->
     json_supported (Slice (Map <$> rs)) = true ->
     fst out = None /\
     StatusCode rsp = 200 /\
     ResponseBody rsp = [JSONLine (Slice (Map <$> rs))]).
Proof.
  intros HN HD HR N out rsp.
  assert (Hex : N < Z.of_nat (length (yielded rows)) ->
                out = (Some (maxRowsExceeded N),
                       {| resp := resp fresh;
                          trace := (ReaderGetRowsByKeyPrefix (index (Vars r) "familyName")
                                      (index (Vars r) "tableName")
                                      (keysToInterface (Key rr))
                                    :: fetches (Z.to_nat N + 1)) ++
                                   [RowsClose;
                                    StatsObserve "get-rows-by-key-prefix" (UserAgent r)] |})).
  { intros Hy. subst out. rewrite (getRowsByKeyPrefix_acquired s r rr rows) by assumption.
    cbv zeta. rewrite rowsLoop_exceeds; simpl; try lia.
    now rewrite Nat.sub_0_r. }
  split; [split|split].
  - intros Hout.
    subst out. rewrite (getRowsByKeyPrefix_acquired s r rr rows) in Hout by assumption.
    cbv zeta in Hout.
    destruct (rowsLoop _ _ _ _) as [[e | [res rows']] w1] eqn:Hloop.
    + simpl in Hout. injection Hout as ->.
      pose proof (rowsLoop_Formatted (maxRows s) rows [] _ _
                    (f_equal fst Hloop)) as (_ & Hlt & _).
      exact Hlt.
    + destruct (Err rows'); [discriminate Hout|].
      unfold Encode in Hout. destruct (json_supported _); discriminate Hout.
  - intros Hy. now rewrite (Hex Hy).
  - intros Hy. subst rsp. unfold response, served, ServeHTTP.
    rewrite handleErr_run. cbn [route_handler]. fold out. rewrite (Hex Hy).
    split; [|answered].
    cbn [snd trace]. rewrite List.filter_app.
    cbn [List.filter is_cursor_call]. now rewrite filter_cursor_fetches.
  - intros rs -> Hlen Hjson.
    assert (Hout : out =
      (None, {| resp := {| header := ∅; wroteHeader := Some (200, ∅);
                            body := [JSONLine (Slice (Map <$> rs))] |};
                trace := trace (snd out) |})).
    { subst out. rewrite (getRowsByKeyPrefix_acquired s r rr (cursor_of rs None)) by assumption.
      cbv zeta. rewrite rowsLoop_all by (right; simpl; lia).
      cbn [Err app]. unfold Encode. rewrite Hjson. reflexivity. }
    subst rsp. unfold response, served, ServeHTTP.
    rewrite handleErr_run. cbn [route_handler]. fold out. rewrite Hout.
    repeat split.
Qed.

(** C5: a scan either fails, and then the response is status 500 carrying
    the error text and no row data, or it succeeds, and then the cursor was
    read to a clean end and the whole list (possibly empty) is the one JSON
    array of a status 200 response. In both cases no record is fetched from
    the cursor once the response has been touched, so nothing is written
    before the accumulated list is complete. *)
Theorem scan_all_or_nothing (s : Sidecar) (r : Request) :
  let out := getRowsByKeyPrefix Decode s r fresh in
  let rsp := response Decode s GetRowsByKeyPrefixRoute r in
  match fst out with
  | Some e =>
      StatusCode rsp = 500 /\ ResponseBody rsp = [TextLine (Error e)]
  | None =>
      exists (rr : ReadRequest) (rs : list Row),
        Decode (Body r) = inr rr /\
        GetRowsByKeyPrefix (reader s) (index (Vars r) "familyName")
          (index (Vars r) "tableName") (keysToInterface (Key rr))
          = inr (cursor_of rs None) /\
        StatusCode rsp = 200 /\
        ResponseBody rsp = [JSONLine (Slice (Map <$> rs))]
  end /\
  no_fetch_after_response
    (trace (served Decode s GetRowsByKeyPrefixRoute r)) = true.
Proof.
  intros out rsp. subst rsp. unfold response, served, ServeHTTP.
  rewrite handleErr_run. cbn [route_handler]. fold out.
  destruct (Decode (Body r)) as [e | rr] eqn:HD.
  { subst out. rewrite (getRowsByKeyPrefix_decode_error s r e) by assumption.
    cbn [fst]. split; [answered | reflexivity]. }
  destruct (GetRowsByKeyPrefix (reader s) (index (Vars r) "familyName")
              (index (Vars r) "tableName") (keysToInterface (Key rr)))
    as [e | rows] eqn:HR.
  { subst out. rewrite (getRowsByKeyPrefix_reader_error s r rr e) by assumption.
    cbn [fst]. split; [answered | reflexivity]. }
  destruct (getRowsByKeyPrefix_shape s r rr rows HD HR)
    as (evs & tail & err & rw & Hevs & Hout & Hcases).
  subst out. rewrite Hout. cbn [fst].
  pose proof (forallb_fetch_no_response evs Hevs) as Hnr.
  destruct Hcases as [(e & -> & -> & _ & Htail) | (rs & -> & -> & -> & ->)].
  - split; [answered|].
    match goal with |- context [http_Error ?m ?c ?w] =>
      destruct (http_Error_untouched m c w eq_refl eq_refl) as (_ & _ & ->) end.
    cbn [trace]. rewrite <- !app_assoc.
    change (no_fetch_after_response
              ([ReaderGetRowsByKeyPrefix (index (Vars r) "familyName")
                  (index (Vars r) "tableName") (keysToInterface (Key rr))]
               ++ evs ++ ?l)) with (no_fetch_after_response (_ :: evs ++ l)).
    rewrite (no_fetch_after_response_app (_ :: evs)) by exact Hnr.
    destruct Htail as [-> | ->]; reflexivity.
  - split.
    + exists rr, rs. repeat split; assumption.
    + cbn [trace]. rewrite (no_fetch_after_response_app (_ :: evs)) by exact Hnr.
      reflexivity.
Qed.

(** C6: once a cursor is acquired, the handler calls [Close] on it exactly
    once, after every other call on the cursor, and before it returns: its
    own trace ends with the [Close] and the deferred latency observation,
    on every exit path. Nothing that follows the handler closes it again. *)
Theorem cursor_closed_exactly_once (s : Sidecar) (r : Request) (rr : ReadRequest)
    (rows : Rows) :
  Decode (Body r) = inr rr ->
  GetRowsByKeyPrefix (reader s) (index (Vars r) "familyName")
    (index (Vars r) "tableName") (keysToInterface (Key rr)) = inr rows ->
  let w := snd (getRowsByKeyPrefix Decode s r fresh) in
  count is_close (trace w) = 1%nat /\
  (exists pre : list Event,
     trace w = pre ++ [RowsClose;
                       StatsObserve "get-rows-by-key-prefix" (UserAgent r)] /\
     count is_close pre = 0%nat) /\
  count is_close (trace (served Decode s GetRowsByKeyPrefixRoute r)) = 1%nat.
Proof.
  intros HD HR w.
  destruct (getRowsByKeyPrefix_shape s r rr rows HD HR)
    as (evs & tail & err & rw & Hevs & Hout & Hcases).
  assert (Hpre : count is_close
                   ((ReaderGetRowsByKeyPrefix (index (Vars r) "familyName")
                       (index (Vars r) "tableName") (keysToInterface (Key rr))
                     :: evs) ++ tail) = 0%nat).
  { rewrite count_app.
    change (count is_close (?e :: evs)) with (count is_close evs).
    rewrite (count_fetch_only is_close evs); [|intros [] ?; try discriminate; reflexivity|exact Hevs].
    destruct Hcases as [(e & _ & _ & _ & [-> | ->]) | (rs & _ & _ & _ & ->)];
      reflexivity. }
  assert (Hw : count is_close (trace w) = 1%nat).
  { subst w. rewrite Hout. cbn [snd trace]. rewrite app_assoc, count_app, Hpre.
    reflexivity. }
  split; [exact Hw|]. split.
  - eexists. split; [|exact Hpre]. subst w. rewrite Hout. cbn [snd trace].
    now rewrite app_assoc.
  - unfold served, ServeHTTP. rewrite handleErr_run. cbn [route_handler].
    fold w in Hw. subst w.
    destruct (getRowsByKeyPrefix Decode s r fresh) as [[e|] w']; cbn [snd] in Hw.
    + unfold http_Error, Header_Set, WriteHeader, Write, modify_resp, bind, emit, ret.
      cbn [fst snd resp trace]. rewrite !count_app, Hw. reflexivity.
    + exact Hw.
Qed.

(** C10: with a ceiling that is zero or negative the limit check is never
    armed: the scan handler never returns an error formatted by the sidecar
    (the row-limit error is the only one), whatever the cursor yields; a
    cursor of any length that ends cleanly is answered in full. *)
Theorem no_row_limit_unless_positive (s : Sidecar) (r : Request) :
  maxRows s <= 0 ->
  let out := getRowsByKeyPrefix Decode s r fresh in
  let rsp := response Decode s GetRowsByKeyPrefixRoute r in
  (forall msg : string, fst out <> Some (Formatted msg)) /\
  (forall (rr : ReadRequest) (rs : list Row),
     Decode (Body r) = inr rr ->
     GetRowsByKeyPrefix (reader s) (index (Vars r) "familyName")
       (index (Vars r) "tableName") (keysToInterface (Key rr))
       = inr (cursor_of rs None) ->
     json_supported (Slice (Map <$> rs)) = true ->
     fst out = None /\
     StatusCode rsp = 200 /\
     ResponseBody rsp = [JSONLine (Slice (Map <$> rs))]).
Proof.
  intros HN out rsp. split.
  - intros msg Hout. subst out.
    destruct (Decode (Body r)) as [e | rr] eqn:HD.
    { rewrite (getRowsByKeyPrefix_decode_error s r e) in Hout by assumption.
      discriminate Hout. }
    destruct (GetRowsByKeyPrefix (reader s) (index (Vars r) "familyName")
                (index (Vars r) "tableName") (keysToInterface (Key rr)))
      as [e | rows] eqn:HR.
    { rewrite (getRowsByKeyPrefix_reader_error s r rr e) in Hout by assumption.
      discriminate Hout. }
    destruct (getRowsByKeyPrefix_shape s r rr rows HD HR)
      as (evs & tail & err & rw & _ & Heq & Hcases).
    rewrite Heq in Hout. cbn [fst] in Hout. subst err.
    destruct Hcases as [(e & [= <-] & _ & Hfmt & _) | (rs & [=] & _)].
    destruct (Hfmt msg eq_refl) as [Hpos _]. lia.
  - intros rr rs HD HR Hjson.
    assert (Hout : out =
      (None, {| resp := {| header := ∅; wroteHeader := Some (200, ∅);
                            body := [JSONLine (Slice (Map <$> rs))] |};
                trace := trace (snd out) |})).
    { subst out.
      rewrite (getRowsByKeyPrefix_acquired s r rr (cursor_of rs None)) by assumption.
      cbv zeta. rewrite rowsLoop_all by (left; exact HN).
      cbn [Err app]. unfold Encode. rewrite Hjson. reflexivity. }
    subst rsp. unfold response, served, ServeHTTP.
    rewrite handleErr_run. cbn [route_handler]. fold out. rewrite Hout.
    repeat split.
Qed.

Lemma json_supported_latency (f : float) :
  json_supported
    (Map {[ "value" := Float64 f; "unit" := String_ "seconds" ]})
  = PrimFloat.is_finite f.
Proof.
  cbn [json_supported].
  rewrite map_fold_insert_L.
  - rewrite map_fold_singleton. cbn [json_supported].
    now destruct (PrimFloat.is_finite f).
  - intros j1 j2 z1 z2 y _ _ _.
    destruct (json_supported z1), (json_supported z2), y; reflexivity.
  - now apply lookup_singleton_ne.
Qed.

(** The Reader receives the resolved segments of the decoded body, in
    order, as its positional arguments. *)
Lemma lookup_passes_positional_args (s : Sidecar) (r : Request) (rr : ReadRequest) :
  Decode (Body r) = inr rr ->
  head (trace (snd (getRowByKey Decode s r fresh)))
  = Some (ReaderGetRowByKey (index (Vars r) "familyName")
            (index (Vars r) "tableName") (map Key.ToValue (Key rr))).
Proof.
  intros HD. rewrite <- keysToInterface_map.
  unfold getRowByKey, defer, reader_GetRowByKey, bind, emit, ret.
  cbv zeta. rewrite HD. cbn [fst snd resp trace fresh app].
  destruct (GetRowByKey _ _ _ _ _) as [[out found] [e|]]; [reflexivity|].
  destruct found; [|reflexivity].
  unfold Encode. destruct (json_supported _); reflexivity.
Qed.

(** C3: when the body decodes and the Reader reports found=false without
    error, the lookup handler returns no error, so the translator does
    nothing (nothing is logged); the response is status 404 with the marker
    header [X-Ctlstore: Not Found] and an empty body. *)
Theorem lookup_not_found (s : Sidecar) (r : Request) (rr : ReadRequest) (out' : Row) :
  Decode (Body r) = inr rr ->
  GetRowByKey (reader s) ∅ (index (Vars r) "familyName")
    (index (Vars r) "tableName") (keysToInterface (Key rr)) = (out', false, None) ->
  let out := getRowByKey Decode s r fresh in
  let rsp := response Decode s GetRowByKeyRoute r in
  fst out = None /\
  StatusCode rsp = 404 /\
  Header rsp !! "X-Ctlstore" = Some "Not Found" /\
  ResponseBody rsp = [] /\
  served Decode s GetRowByKeyRoute r = snd out /\
  count is_log (trace (served Decode s GetRowByKeyRoute r)) = 0%nat.
Proof.
  intros HD HR out rsp.
  assert (Hout : out =
    (None,
     {| resp := {| header := {[ "X-Ctlstore" := "Not Found" ]};
                   wroteHeader := Some (404, {[ "X-Ctlstore" := "Not Found" ]});
                   body := [] |};
        trace := [ReaderGetRowByKey (index (Vars r) "familyName")
                    (index (Vars r) "tableName") (keysToInterface (Key rr));
                  ResponseSetHeader "X-Ctlstore" "Not Found";
                  ResponseWriteHeader 404;
                  StatsObserve "get-row-by-key" (UserAgent r)] |})).
  { subst out.
    unfold getRowByKey, defer, reader_GetRowByKey, observeAPILatency, Header_Set,
      WriteHeader, modify_resp, bind, emit, ret.
    cbv zeta. rewrite HD. cbn [fst snd resp trace]. rewrite HR. reflexivity. }
  subst rsp. unfold response, served, ServeHTTP. rewrite handleErr_run.
  cbn [route_handler]. fold out. rewrite Hout. repeat split.
Qed.


(** C7: for every outcome of the ledger-latency query, [/ping] and
    [/healthcheck] answer with the same response (status, headers, body)
    and return the same error; that response is an empty 200 on success and
    a 500 carrying the wrapped error text on failure. *)
Theorem ping_answers_as_healthcheck (s : Sidecar) (r : Request) :
  response Decode s PingRoute r = response Decode s HealthcheckRoute r /\
  fst (ping s r fresh) = fst (healthcheck s r fresh) /\
  match snd (GetLedgerLatency (reader s)) with
  | None =>
      StatusCode (response Decode s PingRoute r) = 200 /\
      ResponseBody (response Decode s PingRoute r) = []
  | Some e =>
      StatusCode (response Decode s PingRoute r) = 500 /\
      ResponseBody (response Decode s PingRoute r)
        = [TextLine (Error (Wrapped (Foreign e) "healthcheck"))]
  end.
Proof.
  unfold response, served, ServeHTTP, handleErr. cbn [route_handler].
  unfold ping, healthcheck, defer, reader_GetLedgerLatency, observeAPILatency,
    bind, emit, ret.
  destruct (GetLedgerLatency (reader s)) as [d [e|]]; cbn [fst snd];
    repeat split.
Qed.


End HandlerProperties.

(** ** The model at the fixtures *)

(** A segment with both a scalar and a binary payload resolves to the bytes. *)
Example binary_wins :
  Key.ToValue (Key.mk (String_ "a") (Some [x01; x02])) = Bytes [x01; x02].
Proof. reflexivity. Qed.

(** Three rows against a ceiling of 2: the third record is fetched and
    decoded, then the cursor is closed and the translator answers. *)
Example three_rows_against_two :
  trace (served Demo.Decode (Demo.sidecar Demo.three_rows 2)
           GetRowsByKeyPrefixRoute (Demo.request "{}"))
  = [ReaderGetRowsByKeyPrefix "family" "table" [];
     RowsNext true; RowsScan; RowsNext true; RowsScan; RowsNext true; RowsScan;
     RowsClose;
     StatsObserve "get-rows-by-key-prefix" "curl";
     EventsLog "max row count (2) exceeded" "/get-rows-by-key-prefix/family/table";
     ResponseSetHeader "Content-Type" "text/plain; charset=utf-8";
     ResponseSetHeader "X-Content-Type-Options" "nosniff";
     ResponseWriteHeader 500;
     ResponseWrite (TextLine "max row count (2) exceeded")].
Proof. vm_compute. reflexivity. Qed.

(** A scan that fails on its second record: the cursor is closed, the
    response carries the wrapped error only. *)
Example scan_fails_midway :
  trace (snd (getRowsByKeyPrefix Demo.Decode Demo.unhealthy (Demo.request "{}") fresh))
  = [ReaderGetRowsByKeyPrefix "family" "table" [];
     RowsNext true; RowsScan; RowsNext true; RowsScan;
     RowsClose;
     StatsObserve "get-rows-by-key-prefix" "curl"] /\
  ResponseBody (response Demo.Decode Demo.unhealthy GetRowsByKeyPrefixRoute
                  (Demo.request "{}"))
  = [TextLine "scan: bad column"].
Proof. split; vm_compute; reflexivity. Qed.

(** An unreachable replica fails the health check with the wrapped text. *)
Example healthcheck_unreachable :
  StatusCode (response Demo.Decode Demo.unhealthy HealthcheckRoute (Demo.request "")) = 500 /\
  ResponseBody (response Demo.Decode Demo.unhealthy HealthcheckRoute (Demo.request ""))
  = [TextLine "healthcheck: replica unreachable"].
Proof. split; reflexivity. Qed.

(** ** The theorems at the fixtures *)

(** C2 at a ceiling of 2: three rows are refused with the error naming 2,
    two rows are answered in full. *)
Lemma scan_row_limit_witness :
  (1 <= maxRows (Demo.sidecar Demo.three_rows 2)) /\
  fst (getRowsByKeyPrefix Demo.Decode (Demo.sidecar Demo.three_rows 2)
         (Demo.request "{}") fresh)
    = Some (Formatted "max row count (2) exceeded") /\
  ResponseBody (response Demo.Decode (Demo.sidecar Demo.three_rows 2)
                  GetRowsByKeyPrefixRoute (Demo.request "{}"))
    = [TextLine "max row count (2) exceeded"] /\
  ResponseBody (response Demo.Decode (Demo.sidecar Demo.two_rows 2)
                  GetRowsByKeyPrefixRoute (Demo.request "{}"))
    = [JSONLine (Slice (Map <$> Demo.two_rows))].
Proof.
  assert (H2 : 1 <= 2) by lia.
  split; [exact H2|].
  destruct (scan_row_limit Demo.Decode (Demo.sidecar Demo.three_rows 2)
              (Demo.request "{}") {| Key := [] |} (cursor_of Demo.three_rows None)
              H2 eq_refl eq_refl) as (Hiff & Hover & _).
  destruct (scan_row_limit Demo.Decode (Demo.sidecar Demo.two_rows 2)
              (Demo.request "{}") {| Key := [] |} (cursor_of Demo.two_rows None)
              H2 eq_refl eq_refl) as (_ & _ & Hfit).
  split; [exact (proj2 Hiff eq_refl)|].
  split; [exact (proj2 (proj2 (Hover eq_refl)))|].
  refine (proj2 (proj2 (Hfit Demo.two_rows eq_refl _ eq_refl))).
  simpl. lia.
Defined.

(** C3 at a reader that finds nothing. *)
Lemma lookup_not_found_witness :
  StatusCode (response Demo.Decode (Demo.sidecar [] 0) GetRowByKeyRoute
                (Demo.request "{}")) = 404 /\
  Header (response Demo.Decode (Demo.sidecar [] 0) GetRowByKeyRoute
            (Demo.request "{}")) !! "X-Ctlstore" = Some "Not Found" /\
  ResponseBody (response Demo.Decode (Demo.sidecar [] 0) GetRowByKeyRoute
                  (Demo.request "{}")) = [].
Proof.
  destruct (lookup_not_found Demo.Decode (Demo.sidecar [] 0) (Demo.request "{}")
              {| Key := [] |} ∅ eq_refl eq_refl) as (_ & Hs & Hh & Hb & _).
  split; [exact Hs|]. split; [exact Hh | exact Hb].
Defined.


(** C6 on the path that aborts at the row limit. *)
Lemma cursor_closed_exactly_once_witness :
  count is_close
    (trace (snd (getRowsByKeyPrefix Demo.Decode (Demo.sidecar Demo.three_rows 2)
                   (Demo.request "{}") fresh))) = 1%nat.
Proof.
  exact (proj1 (cursor_closed_exactly_once Demo.Decode
                  (Demo.sidecar Demo.three_rows 2) (Demo.request "{}")
                  {| Key := [] |} (cursor_of Demo.three_rows None)
                  eq_refl eq_refl)).
Defined.


(** C10 at a negative ceiling: three rows are answered in full. *)
Lemma no_row_limit_unless_positive_witness :
  maxRows (Demo.sidecar Demo.three_rows (-1)) <= 0 /\
  StatusCode (response Demo.Decode (Demo.sidecar Demo.three_rows (-1))
                GetRowsByKeyPrefixRoute (Demo.request "{}")) = 200 /\
  ResponseBody (response Demo.Decode (Demo.sidecar Demo.three_rows (-1))
                  GetRowsByKeyPrefixRoute (Demo.request "{}"))
    = [JSONLine (Slice (Map <$> Demo.three_rows))].
Proof.
  assert (H : -1 <= 0) by lia.
  split; [exact H|].
  destruct (no_row_limit_unless_positive Demo.Decode
              (Demo.sidecar Demo.three_rows (-1)) (Demo.request "{}") H)
    as (_ & Hall).
  exact (proj2 (Hall {| Key := [] |} Demo.three_rows eq_refl eq_refl eq_refl)).
Defined.

(** * Further properties *)

(** ** More on the scan loop *)

Lemma fetches_app (n m : nat) : fetches (n + m) = fetches n ++ fetches m.
Proof.
  unfold fetches. induction n as [|n IH]; [reflexivity|].
  simpl. now rewrite IH.
Qed.

Lemma count_scan_fetches (n : nat) : count is_scan (fetches n) = n.
Proof. induction n as [|n IH]; [reflexivity|]. simpl. now rewrite <- IH at 2. Qed.

(** Rows that stay within the limit are all appended before the loop
    looks at what follows them. *)
Lemma rowsLoop_rows_then (N : Z) (rs : list Row) (rest : Rows) (res : list iface)
    (w : World) :
  N <= 0 \/ Z.of_nat (length res + length rs) <= N ->
  rowsLoop N (rows_then rs rest) res w =
    rowsLoop N rest (res ++ (Map <$> rs))
      {| resp := resp w; trace := trace w ++ fetches (length rs) |}.
Proof.
  revert res w; induction rs as [|row rs IH]; intros res w HN.
  - simpl. rewrite !app_nil_r. now destruct w.
  - change (rows_then (row :: rs) rest) with (RowsMore (inr row) (rows_then rs rest)).
    cbn [rowsLoop]. unfold bind, emit, ret. cbv zeta. rewrite Scan_fresh.
    cbn [resp trace].
    replace ((N >? 0) && (Z.of_nat (length (res ++ [Map row])) >? N)) with false.
    2:{ rewrite length_app. simpl. simpl in HN. symmetry.
        apply andb_false_iff. rewrite !Z.gtb_ltb, !Z.ltb_ge.
        destruct HN; [left | right]; lia. }
    rewrite IH.
    + cbn [resp trace length fmap list_fmap].
      rewrite <- !app_assoc. reflexivity.
    + rewrite length_app. simpl. simpl in HN. lia.
Qed.

(** What the loop adds to the trace: some number of fetched records, then
    the final [Next] if the loop ended normally. With an armed limit the
    number of records is bounded by the room left plus one. *)
Lemma rowsLoop_events (N : Z) (rows : Rows) (res : list iface) (w : World) :
  exists n : nat,
    trace (snd (rowsLoop N rows res w)) =
      trace w ++ fetches n ++
      match fst (rowsLoop N rows res w) with
      | inr _ => [RowsNext false]
      | inl _ => []
      end /\
    (0 < N -> Z.of_nat (length res) <= N -> Z.of_nat (n + length res) <= N + 1).
Proof.
  revert res w; induction rows as [err | item rest IH]; intros res w.
  - exists 0%nat. split; [reflexivity | simpl; lia].
  - cbn [rowsLoop]. unfold bind, emit, ret. cbv zeta.
    destruct item as [e | row].
    + exists 1%nat. cbn [Scan fst snd resp trace]. split.
      * now rewrite <- !app_assoc.
      * simpl. lia.
    + rewrite Scan_fresh. cbn [resp trace].
      destruct (N >? 0) eqn:Hpos; cbn [andb].
      * destruct (_ >? N) eqn:Hgt.
        -- exists 1%nat. cbn [fst snd trace]. split; [now rewrite <- !app_assoc|].
           intros _ Hres. simpl. lia.
        -- rewrite length_app in Hgt. simpl in Hgt. zbool.
           match goal with |- context [rowsLoop N rest ?r ?w'] =>
             destruct (IH r w') as (n & Ht & Hn) end.
           exists (S n). rewrite Ht. cbn [trace]. split.
           ++ rewrite <- !app_assoc. reflexivity.
           ++ intros H0 Hres. rewrite length_app in Hn. simpl in Hn.
              specialize (Hn H0). lia.
      * zbool.
        match goal with |- context [rowsLoop N rest ?r ?w'] =>
          destruct (IH r w') as (n & Ht & Hn) end.
        exists (S n). rewrite Ht. cbn [trace]. split.
        -- rewrite <- !app_assoc. reflexivity.
        -- intros H0. lia.
Qed.

(** ** More on the handlers *)

Section FurtherHandlerProperties.

Variable Decode : string -> ext_error + ReadRequest.

(** The status and body after the translator answered an error returned
    by a handler that left the response untouched. *)
Lemma answered_500 (fn : Request -> M (option error)) (r : Request) (e : error)
    (t : list Event) :
  fn r fresh = (Some e, {| resp := resp fresh; trace := t |}) ->
  StatusCode (Result (resp (snd (handleErr fn r fresh)))) = 500 /\
  ResponseBody (Result (resp (snd (handleErr fn r fresh)))) = [TextLine (Error e)] /\
  Header (Result (resp (snd (handleErr fn r fresh)))) !! "X-Ctlstore" = None /\
  trace (snd (handleErr fn r fresh)) =
    t ++ [EventsLog (Error e) (URL r);
          ResponseSetHeader "Content-Type" "text/plain; charset=utf-8";
          ResponseSetHeader "X-Content-Type-Options" "nosniff";
          ResponseWriteHeader 500; ResponseWrite (TextLine (Error e))].
Proof.
  intros Hfn. rewrite handleErr_run, Hfn.
  unfold http_Error, Header_Set, WriteHeader, Write, modify_resp, bind, emit, ret,
    Result, commit.
  cbn [fst snd resp trace fresh header wroteHeader body StatusCode ResponseBody
       Header app].
  rewrite <- !app_assoc. repeat split.
Qed.

(** X1: a Reader that refuses the scan. The handler returns the Reader's
    error as it is; the response is 500 with its text, and no call is made
    on any cursor. *)
Theorem scan_reader_error (s : Sidecar) (r : Request) (rr : ReadRequest)
    (e : ext_error) :
  Decode (Body r) = inr rr ->
  GetRowsByKeyPrefix (reader s) (index (Vars r) "familyName")
    (index (Vars r) "tableName") (keysToInterface (Key rr)) = inl e ->
  let rsp := response Decode s GetRowsByKeyPrefixRoute r in
  fst (getRowsByKeyPrefix Decode s r fresh) = Some (Foreign e) /\
  StatusCode rsp = 500 /\
  ResponseBody rsp = [TextLine (Error (Foreign e))] /\
  count is_cursor_call (trace (served Decode s GetRowsByKeyPrefixRoute r)) = 0%nat.
Proof.
  intros HD HR rsp.
  pose proof (getRowsByKeyPrefix_reader_error Decode s r rr e fresh HD HR) as Hout.
  destruct (answered_500 (getRowsByKeyPrefix Decode s) r _ _ Hout)
    as (Hs & Hb & _ & Ht).
  split; [now rewrite Hout|]. split; [exact Hs|]. split; [exact Hb|].
  unfold served, ServeHTTP. cbn [route_handler]. rewrite Ht. reflexivity.
Qed.

(** X2: a record that fails to scan. When the rows before it stay within
    the limit, the handler stops at that record: it is the last one
    fetched, the cursor is closed, and the response is 500 with the scan
    error wrapped as "scan". *)
Theorem scan_stops_at_failing_record (s : Sidecar) (r : Request) (rr : ReadRequest)
    (rs : list Row) (e : ext_error) (rest : Rows) :
  Decode (Body r) = inr rr ->
  GetRowsByKeyPrefix (reader s) (index (Vars r) "familyName")
    (index (Vars r) "tableName") (keysToInterface (Key rr))
    = inr (rows_then rs (RowsMore (inl e) rest)) ->
  maxRows s <= 0 \/ Z.of_nat (length rs) <= maxRows s ->
  let out := getRowsByKeyPrefix Decode s r fresh in
  let rsp := response Decode s GetRowsByKeyPrefixRoute r in
  fst out = Some (Wrapped (Foreign e) "scan") /\
  List.filter is_cursor_call (trace (snd out))
    = fetches (length rs + 1) ++ [RowsClose] /\
  StatusCode rsp = 500 /\
  ResponseBody rsp = [TextLine (Error (Wrapped (Foreign e) "scan"))].
Proof.
  intros HD HR HN out rsp.
  assert (Hout : out =
    (Some (Wrapped (Foreign e) "scan"),
     {| resp := resp fresh;
        trace := (ReaderGetRowsByKeyPrefix (index (Vars r) "familyName")
                    (index (Vars r) "tableName") (keysToInterface (Key rr))
                  :: fetches (length rs + 1)) ++
                 [RowsClose;
                  StatsObserve "get-rows-by-key-prefix" (UserAgent r)] |})).
  { subst out. rewrite (getRowsByKeyPrefix_acquired Decode s r rr _ fresh HD HR).
    cbv zeta. rewrite rowsLoop_rows_then by (simpl; lia).
    cbn [rowsLoop]. unfold bind, emit, ret. cbn [Scan fst snd resp trace fresh app].
    rewrite fetches_app. rewrite <- !app_assoc. reflexivity. }
  destruct (answered_500 (getRowsByKeyPrefix Decode s) r _ _ Hout) as (Hs & Hb & _).
  split; [now rewrite Hout|]. split; [|split; [exact Hs | exact Hb]].
  rewrite Hout. cbn [snd trace]. rewrite List.filter_app.
  cbn [List.filter is_cursor_call]. now rewrite filter_cursor_fetches.
Qed.

(** X3: an iteration error. When the cursor yields rows within the limit
    and then ends with an error, the handler reads it to the end, asks
    [Err], closes the cursor, and answers 500 with the error's own text. *)
Theorem scan_iteration_error (s : Sidecar) (r : Request) (rr : ReadRequest)
    (rs : list Row) (e : ext_error) :
  Decode (Body r) = inr rr ->
  GetRowsByKeyPrefix (reader s) (index (Vars r) "familyName")
    (index (Vars r) "tableName") (keysToInterface (Key rr))
    = inr (cursor_of rs (Some e)) ->
  maxRows s <= 0 \/ Z.of_nat (length rs) <= maxRows s ->
  let out := getRowsByKeyPrefix Decode s r fresh in
  let rsp := response Decode s GetRowsByKeyPrefixRoute r in
  fst out = Some (Foreign e) /\
  List.filter is_cursor_call (trace (snd out))
    = fetches (length rs) ++ [RowsNext false; RowsErr; RowsClose] /\
  StatusCode rsp = 500 /\
  ResponseBody rsp = [TextLine (Error (Foreign e))].
Proof.
  intros HD HR HN out rsp.
  assert (Hout : out =
    (Some (Foreign e),
     {| resp := resp fresh;
        trace := (ReaderGetRowsByKeyPrefix (index (Vars r) "familyName")
                    (index (Vars r) "tableName") (keysToInterface (Key rr))
                  :: fetches (length rs)) ++
                 [RowsNext false; RowsErr; RowsClose;
                  StatsObserve "get-rows-by-key-prefix" (UserAgent r)] |})).
  { subst out. rewrite (getRowsByKeyPrefix_acquired Decode s r rr _ fresh HD HR).
    cbv zeta. rewrite rowsLoop_all by (simpl; lia).
    cbn [Err fst snd resp trace fresh app]. rewrite <- !app_assoc. reflexivity. }
  destruct (answered_500 (getRowsByKeyPrefix Decode s) r _ _ Hout) as (Hs & Hb & _).
  split; [now rewrite Hout|]. split; [|split; [exact Hs | exact Hb]].
  rewrite Hout. cbn [snd trace]. rewrite List.filter_app.
  cbn [List.filter is_cursor_call]. now rewrite filter_cursor_fetches.
Qed.

(** The translator only logs and answers: what it adds to the trace of a
    handler are a log entry and calls on the response. *)
Lemma handleErr_trace (fn : Request -> M (option error)) (r : Request) (w : World) :
  exists extra : list Event,
    trace (snd (handleErr fn r w)) = trace (snd (fn r w)) ++ extra /\
    forallb (fun e => is_log e || is_response_call e) extra = true /\
    count is_log extra = match fst (fn r w) with Some _ => 1%nat | None => 0%nat end.
Proof.
  rewrite handleErr_run. destruct (fn r w) as [[e|] w']; cbn [fst snd].
  - eexists. split; [|split].
    + unfold http_Error, Header_Set, WriteHeader, Write, modify_resp, bind, emit, ret.
      cbn [fst snd resp trace]. rewrite <- !app_assoc. reflexivity.
    + reflexivity.
    + reflexivity.
  - exists []. split; [now rewrite app_nil_r | split; reflexivity].
Qed.

Lemma count_none (p q : Event -> bool) (l : list Event) :
  (forall e, q e = true -> p e = false) ->
  forallb q l = true -> count p l = 0%nat.
Proof.
  intros Hpq. unfold count. induction l as [|e l IH]; simpl; [reflexivity|].
  intros [He Hl]%andb_true_iff. rewrite (Hpq e He). now apply IH.
Qed.

(** The trace of a scan whose cursor was acquired: the Reader call, the
    fetched records, then calls that fetch nothing. *)
Lemma getRowsByKeyPrefix_fetched (s : Sidecar) (r : Request) (rr : ReadRequest)
    (rows : Rows) :
  Decode (Body r) = inr rr ->
  GetRowsByKeyPrefix (reader s) (index (Vars r) "familyName")
    (index (Vars r) "tableName") (keysToInterface (Key rr)) = inr rows ->
  exists (n : nat) (tail : list Event),
    trace (snd (getRowsByKeyPrefix Decode s r fresh)) =
      [ReaderGetRowsByKeyPrefix (index (Vars r) "familyName")
         (index (Vars r) "tableName") (keysToInterface (Key rr))]
      ++ fetches n ++ tail /\
    count is_scan tail = 0%nat /\
    (0 < maxRows s -> Z.of_nat n <= maxRows s + 1).
Proof.
  intros HD HR.
  rewrite (getRowsByKeyPrefix_acquired Decode s r rr rows fresh HD HR). cbv zeta.
  match goal with |- context [rowsLoop ?N ?rows ?res ?w0] =>
    destruct (rowsLoop_events N rows res w0) as (n & Ht & Hn);
    destruct (rowsLoop N rows res w0) as [looped [rw tw]]
  end.
  cbn [fst snd resp trace fresh app length] in Ht, Hn. subst tw.
  exists n.
  assert (Hb : 0 < maxRows s -> Z.of_nat n <= maxRows s + 1).
  { intros H0. specialize (Hn H0). lia. }
  destruct looped as [e | [res rows']].
  - eexists. split; [|split; [|exact Hb]].
    + cbn [snd trace app]. rewrite <- !app_assoc. reflexivity.
    + reflexivity.
  - destruct (Err rows').
    + eexists. split; [|split; [|exact Hb]].
      * cbn [snd trace app]. rewrite <- !app_assoc. reflexivity.
      * reflexivity.
    + unfold Encode, Write, modify_resp, bind, emit, ret.
      destruct (json_supported _).
      * eexists. split; [|split; [|exact Hb]].
        -- cbn [fst snd trace app]. rewrite <- !app_assoc. reflexivity.
        -- reflexivity.
      * eexists. split; [|split; [|exact Hb]].
        -- cbn [snd trace app]. rewrite <- !app_assoc. reflexivity.
        -- reflexivity.
Qed.

(** X4: the ceiling bounds what a scan answers. With a positive ceiling, a
    scan that is answered with status 200 carries a JSON array of at most
    [maxRows] rows. *)
Theorem scan_response_within_ceiling (s : Sidecar) (r : Request) :
  0 < maxRows s ->
  StatusCode (response Decode s GetRowsByKeyPrefixRoute r) = 200 ->
  exists rs : list Row,
    ResponseBody (response Decode s GetRowsByKeyPrefixRoute r)
      = [JSONLine (Slice (Map <$> rs))] /\
    Z.of_nat (length rs) <= maxRows s.
Proof.
  intros HN. unfold response, served, ServeHTTP. cbn [route_handler].
  destruct (Decode (Body r)) as [e | rr] eqn:HD.
  { pose proof (getRowsByKeyPrefix_decode_error Decode s r e fresh HD) as Hout.
    destruct (answered_500 _ r _ _ Hout) as (Hs & _). rewrite Hs. discriminate. }
  destruct (GetRowsByKeyPrefix (reader s) (index (Vars r) "familyName")
              (index (Vars r) "tableName") (keysToInterface (Key rr)))
    as [e | rows] eqn:HR.
  { pose proof (getRowsByKeyPrefix_reader_error Decode s r rr e fresh HD HR) as Hout.
    destruct (answered_500 _ r _ _ Hout) as (Hs & _). rewrite Hs. discriminate. }
  destruct (getRowsByKeyPrefix_shape Decode s r rr rows HD HR)
    as (evs & tail & err & rw & _ & Hout & Hcases).
  destruct Hcases as [(e & -> & -> & _) | (rs & -> & -> & -> & ->)].
  - destruct (answered_500 _ r _ _ Hout) as (Hs & _). rewrite Hs. discriminate.
  - intros _. exists rs. rewrite handleErr_run, Hout. split; [reflexivity|].
    destruct (Z_le_gt_dec (Z.of_nat (length rs)) (maxRows s)) as [Hle | Hgt];
      [exact Hle | exfalso].
    rewrite (getRowsByKeyPrefix_acquired Decode s r rr _ fresh HD HR) in Hout.
    cbv zeta in Hout.
    rewrite rowsLoop_exceeds in Hout;
      [discriminate Hout | exact HN | simpl; lia
      | rewrite yielded_cursor_of; simpl; lia].
Qed.

(** X5: the ceiling bounds what a scan reads. With a positive ceiling the
    handler scans at most [maxRows + 1] records, whatever the cursor holds
    and however the request ends. *)
Theorem scan_fetch_bound (s : Sidecar) (r : Request) :
  0 < maxRows s ->
  Z.of_nat (count is_scan (trace (served Decode s GetRowsByKeyPrefixRoute r)))
    <= maxRows s + 1.
Proof.
  intros HN. unfold served, ServeHTTP. cbn [route_handler].
  destruct (handleErr_trace (getRowsByKeyPrefix Decode s) r fresh)
    as (extra & -> & Hextra & _).
  rewrite count_app.
  rewrite (count_none is_scan (fun e => is_log e || is_response_call e) extra
             ltac:(intros [] H; try discriminate H; reflexivity) Hextra).
  rewrite Nat.add_0_r.
  destruct (Decode (Body r)) as [e | rr] eqn:HD.
  { rewrite (getRowsByKeyPrefix_decode_error Decode s r e fresh HD).
    unfold count. simpl. lia. }
  destruct (GetRowsByKeyPrefix (reader s) (index (Vars r) "familyName")
              (index (Vars r) "tableName") (keysToInterface (Key rr)))
    as [e | rows] eqn:HR.
  { rewrite (getRowsByKeyPrefix_reader_error Decode s r rr e fresh HD HR).
    unfold count. simpl. lia. }
  destruct (getRowsByKeyPrefix_fetched s r rr rows HD HR) as (n & tail & -> & Ht & Hn).
  rewrite !count_app, count_scan_fetches, Ht. unfold count. simpl.
  specialize (Hn HN). lia.
Qed.

(** The lookup handler after a body that decodes, by the Reader's answer. *)
Lemma getRowByKey_decoded (s : Sidecar) (r : Request) (rr : ReadRequest) :
  Decode (Body r) = inr rr ->
  getRowByKey Decode s r fresh =
    let call := ReaderGetRowByKey (index (Vars r) "familyName")
                  (index (Vars r) "tableName") (keysToInterface (Key rr)) in
    let obs := StatsObserve "get-row-by-key" (UserAgent r) in
    match GetRowByKey (reader s) ∅ (index (Vars r) "familyName")
            (index (Vars r) "tableName") (keysToInterface (Key rr)) with
    | (_, _, Some e) =>
        (Some (Foreign e), {| resp := resp fresh; trace := [call; obs] |})
    | (_, false, None) =>
        (None, {| resp := not_found_writer;
                  trace := [call; ResponseSetHeader "X-Ctlstore" "Not Found";
                            ResponseWriteHeader 404; obs] |})
    | (out, true, None) =>
        if json_supported (Map out)
        then (None, {| resp := encoded_writer (Map out);
                       trace := [call; ResponseWrite (JSONLine (Map out)); obs] |})
        else (Some (Foreign (ExtError "json: unsupported value")),
              {| resp := resp fresh; trace := [call; obs] |})
    end.
Proof.
  intros HD.
  unfold getRowByKey, defer, reader_GetRowByKey, observeAPILatency, Header_Set,
    WriteHeader, Write, Encode, modify_resp, bind, emit, ret.
  cbv zeta. rewrite HD. cbn [fst snd resp trace fresh app].
  destruct (GetRowByKey _ _ _ _ _) as [[out found] [e|]]; destruct found;
    try reflexivity.
  cbn [negb]. destruct (json_supported _); reflexivity.
Qed.

(** X6: a lookup that finds a row. When the Reader reports found=true
    without error and the row can be encoded, the response is status 200
    with the row as one JSON object, without the not-found marker. *)
Theorem lookup_found (s : Sidecar) (r : Request) (rr : ReadRequest) (out' : Row) :
  Decode (Body r) = inr rr ->
  GetRowByKey (reader s) ∅ (index (Vars r) "familyName")
    (index (Vars r) "tableName") (keysToInterface (Key rr)) = (out', true, None) ->
  json_supported (Map out') = true ->
  let rsp := response Decode s GetRowByKeyRoute r in
  fst (getRowByKey Decode s r fresh) = None /\
  StatusCode rsp = 200 /\
  ResponseBody rsp = [JSONLine (Map out')] /\
  Header rsp !! "X-Ctlstore" = None.
Proof.
  intros HD HR Hjson rsp. subst rsp.
  unfold response, served, ServeHTTP. rewrite handleErr_run. cbn [route_handler].
  rewrite (getRowByKey_decoded s r rr HD). cbv zeta. rewrite HR, Hjson.
  repeat split.
Qed.

(** X7: a lookup the Reader fails. Whatever the Reader reports as found and
    whatever it left in the output map, its error decides: the handler
    returns it as it is and the response is 500 with its text, without the
    not-found marker. *)
Theorem lookup_reader_error (s : Sidecar) (r : Request) (rr : ReadRequest)
    (out' : Row) (found : bool) (e : ext_error) :
  Decode (Body r) = inr rr ->
  GetRowByKey (reader s) ∅ (index (Vars r) "familyName")
    (index (Vars r) "tableName") (keysToInterface (Key rr)) = (out', found, Some e) ->
  let rsp := response Decode s GetRowByKeyRoute r in
  fst (getRowByKey Decode s r fresh) = Some (Foreign e) /\
  StatusCode rsp = 500 /\
  ResponseBody rsp = [TextLine (Error (Foreign e))] /\
  Header rsp !! "X-Ctlstore" = None.
Proof.
  intros HD HR rsp.
  pose proof (getRowByKey_decoded s r rr HD) as Hout. cbv zeta in Hout.
  rewrite HR in Hout.
  assert (Hout' : getRowByKey Decode s r fresh =
    (Some (Foreign e),
     {| resp := resp fresh;
        trace := [ReaderGetRowByKey (index (Vars r) "familyName")
                    (index (Vars r) "tableName") (keysToInterface (Key rr));
                  StatsObserve "get-row-by-key" (UserAgent r)] |}))
    by (rewrite Hout; now destruct found).
  clear Hout. rename Hout' into Hout.
  destruct (answered_500 (getRowByKey Decode s) r _ _ Hout) as (Hs & Hb & Hh & _).
  split; [now rewrite Hout|]. split; [exact Hs|]. split; [exact Hb | exact Hh].
Qed.

(** X8: a latency query that fails. The handler wraps the error as
    "get ledger latency" and the response is 500 with that text, whatever
    duration came with the error; nothing is encoded. *)
Theorem ledger_latency_error (s : Sidecar) (r : Request) (d : Z) (e : ext_error) :
  GetLedgerLatency (reader s) = (d, Some e) ->
  let rsp := response Decode s GetLedgerLatencyRoute r in
  fst (getLedgerLatency s r fresh) = Some (Wrapped (Foreign e) "get ledger latency") /\
  StatusCode rsp = 500 /\
  ResponseBody rsp = [TextLine (Error (Wrapped (Foreign e) "get ledger latency"))].
Proof.
  intros HR rsp.
  assert (Hout : getLedgerLatency s r fresh =
    (Some (Wrapped (Foreign e) "get ledger latency"),
     {| resp := resp fresh;
        trace := [ReaderGetLedgerLatency;
                  StatsObserve "get-ledger-latency" (UserAgent r)] |})).
  { unfold getLedgerLatency, defer, reader_GetLedgerLatency, observeAPILatency,
      bind, emit, ret. cbn [fst snd]. rewrite HR. reflexivity. }
  destruct (answered_500 (getLedgerLatency s) r _ _ Hout) as (Hs & Hb & _).
  split; [now rewrite Hout|]. split; [exact Hs | exact Hb].
Qed.

(** Every handler, on every request: its trace ends with its deferred
    latency observations, before which nothing is observed or logged and
    the Reader is called once (not at all when a POST body fails to
    decode); and it either returns an error and
    leaves the response untouched, or returns none and leaves the response
    untouched, marked not-found, or holding one encoded value. *)
Lemma handler_outcome (s : Sidecar) (rt : Route) (r : Request) :
  exists (pre : list Event) (err : option error) (rw : ResponseWriter),
    route_handler Decode s rt r fresh =
      (err, {| resp := rw; trace := pre ++ observations rt r |}) /\
    count is_observe pre = 0%nat /\
    count is_log pre = 0%nat /\
    count is_reader_call pre =
      match rt with
      | GetRowByKeyRoute | GetRowsByKeyPrefixRoute =>
          match Decode (Body r) with inl _ => 0%nat | inr _ => 1%nat end
      | _ => 1%nat
      end /\
    match err with
    | Some _ => rw = resp fresh
    | None =>
        rw = resp fresh \/
        (rw = not_found_writer /\ rt = GetRowByKeyRoute) \/
        (exists v, rw = encoded_writer v)
    end.
Proof.
  destruct rt; cbn [route_handler].
  - (* get-row-by-key *)
    destruct (Decode (Body r)) as [e | rr] eqn:HD.
    { exists [], (Some (Wrapped (Foreign e) "decode body")), (resp fresh).
      split; [|repeat split; reflexivity].
      unfold getRowByKey, defer, observeAPILatency, bind, emit, ret.
      cbv zeta. rewrite HD. reflexivity. }
    rewrite (getRowByKey_decoded s r rr HD). cbv zeta.
    destruct (GetRowByKey _ _ _ _ _) as [[out found] [e|]].
    { eexists [_], _, _. split; [now destruct found|].
      repeat split; reflexivity. }
    destruct found.
    + destruct (json_supported _).
      * eexists [_; _], None, _. split; [reflexivity|].
        split; [reflexivity|]. split; [reflexivity|]. split; [reflexivity|].
        right. right. now eexists.
      * eexists [_], (Some _), _. split; [reflexivity|].
        repeat split; reflexivity.
    + eexists [_; _; _], None, _. split; [reflexivity|].
      split; [reflexivity|]. split; [reflexivity|]. split; [reflexivity|].
      right. left. now split.
  - (* get-rows-by-key-prefix *)
    destruct (Decode (Body r)) as [e | rr] eqn:HD.
    { rewrite (getRowsByKeyPrefix_decode_error Decode s r e fresh HD).
      exists [], (Some (Wrapped (Foreign e) "decode body")), (resp fresh).
      split; [reflexivity|]. repeat split; reflexivity. }
    destruct (GetRowsByKeyPrefix (reader s) (index (Vars r) "familyName")
                (index (Vars r) "tableName") (keysToInterface (Key rr)))
      as [e | rows] eqn:HR.
    { rewrite (getRowsByKeyPrefix_reader_error Decode s r rr e fresh HD HR).
      eexists [_], (Some (Foreign e)), (resp fresh).
      split; [reflexivity|]. repeat split; reflexivity. }
    destruct (getRowsByKeyPrefix_shape Decode s r rr rows HD HR)
      as (evs & tail & err & rw & Hevs & Hout & Hcases).
    rewrite Hout.
    exists ((ReaderGetRowsByKeyPrefix (index (Vars r) "familyName")
               (index (Vars r) "tableName") (keysToInterface (Key rr)) :: evs)
            ++ tail ++ [RowsClose]), err, rw.
    split; [cbn [observations route_ops map]; now rewrite <- !app_assoc|].
    assert (Hcount : forall p : Event -> bool,
              (forall e, is_fetch e = true -> p e = false) ->
              count p ((ReaderGetRowsByKeyPrefix (index (Vars r) "familyName")
                          (index (Vars r) "tableName") (keysToInterface (Key rr))
                        :: evs) ++ tail ++ [RowsClose])
              = (count p [ReaderGetRowsByKeyPrefix (index (Vars r) "familyName")
                            (index (Vars r) "tableName") (keysToInterface (Key rr))]
                 + count p (tail ++ [RowsClose]))%nat).
    { intros p Hp.
      change (?c :: evs) with ([c] ++ evs).
      rewrite !count_app, (count_none p is_fetch evs Hp Hevs). lia. }
    rewrite !Hcount by (intros [] H; try discriminate H; reflexivity).
    destruct Hcases as [(e & -> & -> & _ & [-> | ->]) | (rs & -> & _ & -> & ->)].
    + repeat split; reflexivity.
    + repeat split; reflexivity.
    + split; [reflexivity|]. split; [reflexivity|]. split; [reflexivity|].
      right. right. now eexists.
  - (* get-ledger-latency *)
    unfold getLedgerLatency, defer, reader_GetLedgerLatency, observeAPILatency,
      Encode, Write, modify_resp, bind, emit, ret.
    destruct (GetLedgerLatency (reader s)) as [d [e|]]; cbn [fst snd].
    { eexists [_], (Some _), _. split; [reflexivity|].
      repeat split; reflexivity. }
    cbv zeta. destruct (json_supported _).
    + eexists [_; _], None, _. split; [reflexivity|].
      split; [reflexivity|]. split; [reflexivity|]. split; [reflexivity|].
      right. right. now eexists.
    + eexists [_], (Some _), _. split; [reflexivity|].
      repeat split; reflexivity.
  - (* healthcheck *)
    unfold healthcheck, defer, reader_GetLedgerLatency, observeAPILatency,
      bind, emit, ret.
    destruct (GetLedgerLatency (reader s)) as [d [e|]]; cbn [fst snd].
    + eexists [_], (Some _), _. split; [reflexivity|].
      repeat split; reflexivity.
    + eexists [_], None, _. split; [reflexivity|].
      split; [reflexivity|]. split; [reflexivity|]. split; [reflexivity|].
      now left.
  - (* ping *)
    unfold ping, healthcheck, defer, reader_GetLedgerLatency, observeAPILatency,
      bind, emit, ret.
    destruct (GetLedgerLatency (reader s)) as [d [e|]]; cbn [fst snd].
    + eexists [_], (Some _), _. split; [reflexivity|].
      repeat split; reflexivity.
    + eexists [_], None, _. split; [reflexivity|].
      split; [reflexivity|]. split; [reflexivity|]. split; [reflexivity|].
      now left.
Qed.

Lemma count_zero_filter (p : Event -> bool) (l : list Event) :
  count p l = 0%nat -> List.filter p l = [].
Proof. unfold count. now destruct (List.filter p l). Qed.

Lemma filter_observations (rt : Route) (r : Request) :
  List.filter is_observe (observations rt r) = observations rt r.
Proof. destruct rt; reflexivity. Qed.

Lemma count_observations (p : Event -> bool) (rt : Route) (r : Request) :
  (forall op ua, p (StatsObserve op ua) = false) ->
  count p (observations rt r) = 0%nat.
Proof.
  intros Hp. unfold count, observations.
  induction (route_ops rt) as [|op ops IH]; [reflexivity|].
  simpl. now rewrite Hp.
Qed.

(** X9: the error translator. On every route and request, a handler that
    returns an error has written nothing, so the response is 500 with the
    error's text and the error is logged exactly once; a handler that
    returns no error is never answered 500, nothing is logged, and the
    translator changes nothing. *)
Theorem error_iff_500_and_logged (s : Sidecar) (rt : Route) (r : Request) :
  let out := route_handler Decode s rt r fresh in
  let rsp := response Decode s rt r in
  match fst out with
  | Some e =>
      StatusCode rsp = 500 /\
      ResponseBody rsp = [TextLine (Error e)] /\
      count is_log (trace (served Decode s rt r)) = 1%nat
  | None =>
      StatusCode rsp <> 500 /\
      count is_log (trace (served Decode s rt r)) = 0%nat /\
      served Decode s rt r = snd out
  end.
Proof.
  intros out rsp. subst out rsp. unfold response, served, ServeHTTP.
  destruct (handler_outcome s rt r) as (pre & err & rw & Hout & _ & Hlog & _ & Hrw).
  destruct err as [e|].
  - subst rw. destruct (answered_500 _ r _ _ Hout) as (Hs & Hb & _ & Ht).
    rewrite Hout. cbn [fst]. split; [exact Hs|]. split; [exact Hb|].
    rewrite Ht, !count_app, Hlog, count_observations by reflexivity. reflexivity.
  - rewrite handleErr_run, Hout. cbn [fst snd resp trace]. split; [|split].
    + destruct Hrw as [-> | [[-> _] | [v ->]]]; discriminate.
    + now rewrite count_app, Hlog, count_observations.
    + reflexivity.
Qed.

(** X10: the three statuses and the not-found marker. Every response is 200,
    404 or 500; it is 404 exactly when it carries the header
    [X-Ctlstore: Not Found]; and only the lookup route answers 404. *)
Theorem not_found_marker_iff_404 (s : Sidecar) (rt : Route) (r : Request) :
  let rsp := response Decode s rt r in
  (StatusCode rsp = 200 \/ StatusCode rsp = 404 \/ StatusCode rsp = 500) /\
  (StatusCode rsp = 404 <-> Header rsp !! "X-Ctlstore" = Some "Not Found") /\
  (StatusCode rsp = 404 -> rt = GetRowByKeyRoute).
Proof.
  intros rsp. subst rsp. unfold response, served, ServeHTTP.
  destruct (handler_outcome s rt r) as (pre & err & rw & Hout & _ & _ & _ & Hrw).
  destruct err as [e|].
  - subst rw. destruct (answered_500 _ r _ _ Hout) as (Hs & _ & Hh & _).
    rewrite Hs, Hh. split; [now right; right|]. split; [split|]; discriminate.
  - rewrite handleErr_run, Hout. cbn [fst snd resp].
    destruct Hrw as [-> | [[-> ->] | [v ->]]].
    + split; [now left|]. split; [split|]; discriminate.
    + split; [now right; left|]. split; [split|]; reflexivity.
    + split; [now left|]. split; [split|]; discriminate.
Qed.

(** X11: latency instrumentation. On every route and request, whatever the
    outcome, the latency observations in the trace are exactly those the
    route's handlers defer (one, or two for [/ping]), each tagged with the
    operation name and the caller's user agent; they are the last thing
    the handler does. *)
Theorem latency_observed_on_every_path (s : Sidecar) (rt : Route) (r : Request) :
  List.filter is_observe (trace (served Decode s rt r)) = observations rt r /\
  exists pre : list Event,
    trace (snd (route_handler Decode s rt r fresh)) = pre ++ observations rt r /\
    List.filter is_observe pre = [].
Proof.
  unfold served, ServeHTTP.
  destruct (handleErr_trace (route_handler Decode s rt) r fresh)
    as (extra & -> & Hextra & _).
  destruct (handler_outcome s rt r) as (pre & err & rw & Hout & Hobs & _).
  rewrite Hout. cbn [snd trace]. split.
  - rewrite !List.filter_app, (count_zero_filter _ _ Hobs), filter_observations.
    rewrite (count_zero_filter is_observe extra); [now rewrite app_nil_r|].
    apply (count_none _ (fun e => is_log e || is_response_call e));
      [intros [] H; try discriminate H; reflexivity | exact Hextra].
  - exists pre. split; [reflexivity | now apply count_zero_filter].
Qed.

(** X12: one Reader call per request. On every route the Reader is called
    exactly once, except that a POST request whose body fails to decode is
    answered without any call; there is no retry. *)
Theorem reader_called_once (s : Sidecar) (rt : Route) (r : Request) :
  count is_reader_call (trace (served Decode s rt r)) =
    match rt with
    | GetRowByKeyRoute | GetRowsByKeyPrefixRoute =>
        match Decode (Body r) with inl _ => 0%nat | inr _ => 1%nat end
    | _ => 1%nat
    end.
Proof.
  unfold served, ServeHTTP.
  destruct (handleErr_trace (route_handler Decode s rt) r fresh)
    as (extra & -> & Hextra & _).
  destruct (handler_outcome s rt r) as (pre & err & rw & Hout & _ & _ & Hrd & _).
  rewrite Hout. cbn [snd trace].
  rewrite !count_app, Hrd, count_observations by reflexivity.
  rewrite (count_none is_reader_call (fun e => is_log e || is_response_call e) extra
             ltac:(intros [] H; try discriminate H; reflexivity) Hextra).
  lia.
Qed.

End FurtherHandlerProperties.

(** ** What the response depends on *)

Lemma same_ret {A} (x : A) : same_outcome (ret x) (ret x).
Proof. intros w w' H. split; [reflexivity | exact H]. Qed.

Lemma same_emit (e e' : Event) : same_outcome (emit e) (emit e').
Proof. intros w w' H. split; [reflexivity | exact H]. Qed.

Lemma same_modify_resp (f : ResponseWriter -> ResponseWriter) :
  same_outcome (modify_resp f) (modify_resp f).
Proof. intros w w' H. split; [reflexivity | simpl; now rewrite H]. Qed.

Lemma same_bind {A B} (m m' : M A) (k k' : A -> M B) :
  same_outcome m m' ->
  (forall x, same_outcome (k x) (k' x)) ->
  same_outcome (bind m k) (bind m' k').
Proof.
  intros Hm Hk w w' H. unfold bind.
  destruct (Hm w w' H) as [Hx Hr].
  destruct (m w) as [x w1], (m' w') as [x' w1']. simpl in Hx, Hr. subst x'.
  now apply Hk.
Qed.

Lemma same_defer {A} (d d' : M unit) (body body' : M A) :
  same_outcome d d' -> same_outcome body body' ->
  same_outcome (defer d body) (defer d' body').
Proof.
  intros Hd Hb. unfold defer. apply same_bind; [exact Hb|]. intros x.
  apply same_bind; [exact Hd|]. intros _. apply same_ret.
Qed.

(** Steps through two computations of the same shape. *)
Ltac same_step :=
  first
    [ apply same_ret
    | apply same_emit
    | apply same_modify_resp
    | apply same_defer
    | apply same_bind; [|intros ?]
    | match goal with
      | |- same_outcome (match ?x with _ => _ end) (match ?x with _ => _ end) =>
          destruct x
      | |- same_outcome (if ?b then _ else _) (if ?b then _ else _) =>
          destruct b
      | |- same_outcome (let '(_, _) := ?x in _) (let '(_, _) := ?x in _) =>
          destruct x
      end ].

Lemma same_Encode (v : iface) : same_outcome (Encode v) (Encode v).
Proof. unfold Encode, Write. repeat same_step. Qed.

Lemma same_http_Error (msg : string) (code : Z) :
  same_outcome (http_Error msg code) (http_Error msg code).
Proof. unfold http_Error, Header_Set, WriteHeader, Write. repeat same_step. Qed.

Lemma same_rowsLoop (N : Z) (rows : Rows) (res : list iface) :
  same_outcome (rowsLoop N rows res) (rowsLoop N rows res).
Proof.
  revert res. induction rows as [err | item rest IH]; intros res; cbn [rowsLoop].
  - repeat same_step.
  - cbv zeta. do 2 same_step. do 2 same_step.
    destruct (Scan item ∅) as [out [e|]]; [apply same_ret|].
    destruct ((N >? 0) && _); [apply same_ret | apply IH].
Qed.

Section ResponseDependsOn.

Variable Decode : string -> ext_error + ReadRequest.

Lemma same_route_handler (s : Sidecar) (rt : Route) (r r' : Request) :
  Vars r = Vars r' -> Body r = Body r' ->
  same_outcome (route_handler Decode s rt r) (route_handler Decode s rt r').
Proof.
  intros HV HB. destruct rt; cbn [route_handler].
  - unfold getRowByKey, reader_GetRowByKey, observeAPILatency, Header_Set, WriteHeader.
    cbv zeta. rewrite <- HV, <- HB.
    repeat first [apply same_Encode | same_step].
  - unfold getRowsByKeyPrefix, reader_GetRowsByKeyPrefix, observeAPILatency.
    cbv zeta. rewrite <- HV, <- HB.
    repeat first [apply same_Encode | apply same_rowsLoop | same_step].
  - unfold getLedgerLatency, reader_GetLedgerLatency, observeAPILatency.
    repeat first [apply same_Encode | same_step].
  - unfold healthcheck, reader_GetLedgerLatency, observeAPILatency.
    repeat same_step.
  - unfold ping, healthcheck, reader_GetLedgerLatency, observeAPILatency.
    repeat same_step.
Qed.

(** X13: what the response depends on. Two requests with the same path
    variables and the same body get the same response and the same handler
    result, whatever their user agents and URLs: instrumentation and
    logging never alter the control flow. *)
Theorem response_ignores_user_agent_and_url (s : Sidecar) (rt : Route)
    (r r' : Request) :
  Vars r = Vars r' -> Body r = Body r' ->
  response Decode s rt r = response Decode s rt r' /\
  fst (route_handler Decode s rt r fresh) = fst (route_handler Decode s rt r' fresh).
Proof.
  intros HV HB.
  pose proof (same_route_handler s rt r r' HV HB) as Hh.
  split; [|exact (proj1 (Hh fresh fresh eq_refl))].
  unfold response, served, ServeHTTP. f_equal.
  assert (Hs : same_outcome (handleErr (route_handler Decode s rt) r)
                            (handleErr (route_handler Decode s rt) r')).
  { unfold handleErr. apply same_bind; [exact Hh|]. intros [e|].
    - apply same_bind; [apply same_emit|]. intros _. apply same_http_Error.
    - apply same_ret. }
  exact (proj2 (Hs fresh fresh eq_refl)).
Qed.

End ResponseDependsOn.

(** ** MySQL column introspection *)

Module mysql_properties.

Import mysql.

Lemma table_args_from (names : list string) (acc : list iface) :
  fold_left (fun acc tableName => acc ++ [String_ tableName]) names acc
  = acc ++ map String_ names.
Proof.
  revert acc; induction names as [|n names IH]; intros acc; simpl.
  - now rewrite app_nil_r.
  - rewrite IH, <- app_assoc. reflexivity.
Qed.

Lemma fetches_succ (n : nat) : fetches (S n) = [Next true; Scan] ++ fetches n.
Proof. reflexivity. Qed.

Lemma fetches_snoc (n : nat) : fetches n ++ [Next true; Scan] = fetches (n + 1).
Proof.
  induction n as [|n IH]; [reflexivity|].
  rewrite fetches_succ, <- app_assoc, IH. reflexivity.
Qed.

Lemma count_db_app (p : Event -> bool) (l1 l2 : list Event) :
  count p (l1 ++ l2) = (count p l1 + count p l2)%nat.
Proof. unfold count. now rewrite List.filter_app, length_app. Qed.

Lemma count_fetches (p : Event -> bool) (n : nat) :
  p (Next true) = false -> p Scan = false -> count p (fetches n) = 0%nat.
Proof.
  intros H1 H2. unfold count. induction n as [|n IH]; [reflexivity|].
  rewrite fetches_succ, List.filter_app. simpl. now rewrite H1, H2.
Qed.

(** Records that scan are all appended before the loop looks at what
    follows them. *)
Lemma columnsLoop_records_then (cs : list Columns) (rest : sqlRows)
    (acc : list DBColumnInfo) (t : list Event) :
  columnsLoop (records_then cs rest) acc t
  = columnsLoop rest (acc ++ map columnInfo cs) (t ++ fetches (length cs)).
Proof.
  revert acc t; induction cs as [|c cs IH]; intros acc t.
  - simpl. now rewrite !app_nil_r.
  - change (records_then (c :: cs) rest) with (SqlMore (inr c) (records_then cs rest)).
    cbn [columnsLoop]. unfold bind, emit, ret. rewrite IH.
    cbn [length map]. rewrite fetches_succ, <- !app_assoc. reflexivity.
Qed.

(** The loop ends in one of two ways: at the end of a cursor whose records
    all scanned, with one entry per record, or at the first record that
    fails to scan. *)
Lemma columnsLoop_outcome (rows : sqlRows) (acc : list DBColumnInfo) (t : list Event) :
  (exists (cs : list Columns) (err : option ext_error),
     rows = records cs err /\
     columnsLoop rows acc t
     = (inr (acc ++ map columnInfo cs, SqlEnd err),
        t ++ fetches (length cs) ++ [Next false])) \/
  (exists (cs : list Columns) (e : ext_error) (rest : sqlRows),
     rows = records_then cs (SqlMore (inl e) rest) /\
     columnsLoop rows acc t = (inl e, t ++ fetches (length cs + 1))).
Proof.
  revert acc t; induction rows as [err | item rest IH]; intros acc t.
  - left. exists [], err. split; [reflexivity|].
    simpl. unfold bind, emit, ret. now rewrite app_nil_r.
  - destruct item as [e | c].
    + right. exists [], e, rest. split; [reflexivity|].
      cbn [columnsLoop]. unfold bind, emit, ret. now rewrite <- app_assoc.
    + cbn [columnsLoop]. unfold bind, emit, ret.
      destruct (IH (acc ++ [columnInfo c]) ((t ++ [Next true]) ++ [Scan]))
        as [(cs & err & -> & Hl) | (cs & e & rest' & -> & Hl)].
      * left. exists (c :: cs), err. split; [reflexivity|]. rewrite Hl.
        cbn [length map]. rewrite fetches_succ, <- !app_assoc. reflexivity.
      * right. exists (c :: cs), e, rest'. split; [reflexivity|]. rewrite Hl.
        cbn [length]. rewrite <- !app_assoc. reflexivity.
Qed.

Section GetColumnInfo.

Variable SqlSprintf : string -> string -> string.
Variable SQLPlaceholderSet : Z -> string.

Abbreviation GetColumnInfo := (GetColumnInfo SqlSprintf SQLPlaceholderSet).

(** The query text for [n] table names. *)
Abbreviation query_for n :=
  (SqlSprintf columnsQuery (SQLPlaceholderSet (Z.of_nat n))).

(** What follows a query that returned rows. *)
Lemma GetColumnInfo_queried (m : MySQLDBInfo) (names : list string) (rows : sqlRows) :
  names <> [] ->
  QueryContext (Db m) (query_for (length names)) (map String_ names) = inr rows ->
  GetColumnInfo m names [] =
    let '(looped, t1) :=
      columnsLoop rows [] [Query (query_for (length names)) (map String_ names)] in
    match looped with
    | inl e => ((None, Some e), t1 ++ [Close])
    | inr (infos, rows') =>
        match rowsErr rows' with
        | Some e => ((None, Some e), t1 ++ [Err; Close])
        | None => ((Some infos, None), t1 ++ [Err; Close])
        end
    end.
Proof.
  intros Hne HQ. destruct names as [|n names]; [contradiction|].
  unfold mysql.GetColumnInfo.
  replace (Z.of_nat (length (n :: names)) =? 0) with false by reflexivity.
  cbv zeta. rewrite table_args_from. cbn [app].
  unfold defer, bind, emit, ret. cbn [app]. rewrite HQ.
  destruct (columnsLoop _ _ _) as [[e | [infos rows']] t1].
  - reflexivity.
  - destruct (rowsErr rows'); now rewrite <- app_assoc.
Qed.

(** X14: when the database is queried. For an empty table list nothing is
    asked of the database and the result is the nil slice with a nil
    error; otherwise exactly one query is issued, whose text is the format
    filled with one placeholder per table name and whose arguments are the
    table names in order. *)
Theorem column_query_per_table_list (m : MySQLDBInfo) (names : list string) :
  match names with
  | [] => GetColumnInfo m names [] = ((None, None), [])
  | _ :: _ =>
      List.filter is_query (snd (GetColumnInfo m names []))
      = [Query (query_for (length names)) (map String_ names)]
  end.
Proof.
  destruct names as [|n names]; [reflexivity|].
  set (names' := n :: names).
  destruct (QueryContext (Db m) (query_for (length names')) (map String_ names'))
    as [e | rows] eqn:HQ.
  - unfold mysql.GetColumnInfo.
    replace (Z.of_nat (length names') =? 0) with false by reflexivity.
    cbv zeta. rewrite table_args_from. cbn [app].
    unfold bind, emit, ret. cbn [app]. rewrite HQ. reflexivity.
  - rewrite (GetColumnInfo_queried m names' rows ltac:(discriminate) HQ).
    destruct (columnsLoop_outcome rows []
                [Query (query_for (length names')) (map String_ names')])
      as [(cs & err & _ & ->) | (cs & e & rest & _ & ->)].
    + assert (Hf : List.filter is_query (fetches (length cs)) = []).
      { pose proof (count_fetches is_query (length cs) eq_refl eq_refl) as H.
        unfold count in H. now destruct (List.filter _ _). }
      destruct (rowsErr _); cbn [snd]; rewrite !List.filter_app, Hf; reflexivity.
    + assert (Hf : List.filter is_query (fetches (length cs + 1)) = []).
      { pose proof (count_fetches is_query (length cs + 1) eq_refl eq_refl) as H.
        unfold count in H. now destruct (List.filter _ _). }
      cbn [snd]. rewrite !List.filter_app, Hf. reflexivity.
Qed.

Lemma column_query_error_aux (m : MySQLDBInfo) (names : list string) (e : ext_error) :
  names <> [] ->
  QueryContext (Db m) (query_for (length names)) (map String_ names) = inl e ->
  GetColumnInfo m names [] =
    ((None, Some e), [Query (query_for (length names)) (map String_ names)]).
Proof.
  intros Hne HQ. destruct names as [|n names]; [contradiction|].
  unfold mysql.GetColumnInfo.
  replace (Z.of_nat (length (n :: names)) =? 0) with false by reflexivity.
  cbv zeta. rewrite table_args_from. cbn [app].
  unfold bind, emit, ret. cbn [app]. rewrite HQ. reflexivity.
Qed.

(** X15: a query the database refuses. The error is returned as it is with
    the nil slice; the query is the only call made, so nothing is
    iterated and nothing is closed. *)
Theorem column_query_error (m : MySQLDBInfo) (names : list string) (e : ext_error) :
  names <> [] ->
  QueryContext (Db m) (query_for (length names)) (map String_ names) = inl e ->
  fst (GetColumnInfo m names []) = (None, Some e) /\
  snd (GetColumnInfo m names [])
    = [Query (query_for (length names)) (map String_ names)] /\
  count is_rows_call (snd (GetColumnInfo m names [])) = 0%nat.
Proof.
  intros Hne HQ. rewrite (column_query_error_aux m names e Hne HQ).
  repeat split.
Qed.

(** X16: a result set read to its end. The returned slice is non-nil and
    has one entry per record, in the order of the rows, each with the
    record's table, position, name and type and with [IsPrimaryKey] set
    exactly for the column key "PRI"; the rows are read to the end, asked
    for their error, and closed. *)
Theorem columns_returned_in_order (m : MySQLDBInfo) (names : list string)
    (cs : list Columns) :
  names <> [] ->
  QueryContext (Db m) (query_for (length names)) (map String_ names)
    = inr (records cs None) ->
  GetColumnInfo m names [] =
    ((Some (map columnInfo cs), None),
     Query (query_for (length names)) (map String_ names)
     :: fetches (length cs) ++ [Next false; Err; Close]) /\
  forall (i : nat) (c : Columns),
    cs !! i = Some c ->
    exists info : DBColumnInfo,
      map columnInfo cs !! i = Some info /\
      TableName info = table_name c /\
      Index info = ordinal_position c /\
      ColumnName info = column_name c /\
      DataType info = data_type c /\
      (IsPrimaryKey info = true <-> column_key c = "PRI").
Proof.
  intros Hne HQ. split.
  - rewrite (GetColumnInfo_queried m names _ Hne HQ).
    unfold records. rewrite columnsLoop_records_then.
    cbn [columnsLoop]. unfold bind, emit, ret. cbn [rowsErr app].
    rewrite <- !app_assoc. reflexivity.
  - intros i c Hi. exists (columnInfo c). split.
    + change (map columnInfo cs) with (columnInfo <$> cs).
      now rewrite list_lookup_fmap, Hi.
    + repeat split; try reflexivity; cbn [IsPrimaryKey columnInfo];
        apply String.eqb_eq.
Qed.

(** X17: all or nothing. Whatever the database answers, a non-nil slice is
    returned only with a nil error and only after every record of the
    result set was scanned and the rows ended without error; a nil slice
    with a nil error is returned only for an empty table list. *)
Theorem columns_all_or_nothing (m : MySQLDBInfo) (names : list string) :
  match fst (GetColumnInfo m names []) with
  | (Some infos, None) =>
      names <> [] /\
      exists cs : list Columns,
        QueryContext (Db m) (query_for (length names)) (map String_ names)
          = inr (records cs None) /\
        infos = map columnInfo cs
  | (Some _, Some _) => False
  | (None, None) => names = []
  | (None, Some _) => names <> []
  end.
Proof.
  destruct names as [|n names]; [reflexivity|].
  set (names' := n :: names).
  assert (Hne : names' <> []) by discriminate.
  destruct (QueryContext (Db m) (query_for (length names')) (map String_ names'))
    as [e | rows] eqn:HQ.
  - now rewrite (column_query_error_aux m names' e Hne HQ).
  - rewrite (GetColumnInfo_queried m names' rows Hne HQ).
    destruct (columnsLoop_outcome rows []
                [Query (query_for (length names')) (map String_ names')])
      as [(cs & err & -> & ->) | (cs & e & rest & _ & ->)].
    + destruct err as [e|]; cbn [rowsErr fst]; [exact Hne|].
      split; [exact Hne|]. now exists cs.
    + exact Hne.
Qed.

(** X18: rows are closed exactly once. Whenever the query returns rows,
    [Close] is called on them exactly once, as the last call the function
    makes, however the iteration ends. *)
Theorem column_rows_closed_once (m : MySQLDBInfo) (names : list string)
    (rows : sqlRows) :
  names <> [] ->
  QueryContext (Db m) (query_for (length names)) (map String_ names) = inr rows ->
  exists pre : list Event,
    snd (GetColumnInfo m names []) = pre ++ [Close] /\
    count is_close pre = 0%nat.
Proof.
  intros Hne HQ. rewrite (GetColumnInfo_queried m names rows Hne HQ).
  destruct (columnsLoop_outcome rows []
              [Query (query_for (length names)) (map String_ names)])
    as [(cs & err & _ & ->) | (cs & e & rest & _ & ->)].
  - exists ([Query (query_for (length names)) (map String_ names)]
            ++ fetches (length cs) ++ [Next false; Err]).
    split.
    + destruct (rowsErr _); cbn [snd]; now rewrite <- !app_assoc.
    + rewrite !count_db_app, count_fetches by reflexivity. reflexivity.
  - exists ([Query (query_for (length names)) (map String_ names)]
            ++ fetches (length cs + 1)).
    split; [reflexivity|].
    rewrite !count_db_app, count_fetches by reflexivity. reflexivity.
Qed.

(** X19: a record that fails to scan. The function stops at that record: it
    is the last one fetched, the rows are closed, and the scan error is
    returned as it is with the nil slice, so the entries built from the
    records before it are dropped. *)
Theorem columns_stop_at_failing_record (m : MySQLDBInfo) (names : list string)
    (cs : list Columns) (e : ext_error) (rest : sqlRows) :
  names <> [] ->
  QueryContext (Db m) (query_for (length names)) (map String_ names)
    = inr (records_then cs (SqlMore (inl e) rest)) ->
  GetColumnInfo m names [] =
    ((None, Some e),
     Query (query_for (length names)) (map String_ names)
     :: fetches (length cs + 1) ++ [Close]).
Proof.
  intros Hne HQ. rewrite (GetColumnInfo_queried m names _ Hne HQ).
  rewrite columnsLoop_records_then.
  cbn [columnsLoop]. unfold bind, emit, ret. cbn [app].
  rewrite <- !app_assoc. cbn [app].
  rewrite <- fetches_snoc, <- !app_assoc. reflexivity.
Qed.

End GetColumnInfo.

End mysql_properties.

(** ** Whole seconds *)

Module float64_exact.

Lemma shr_fexp_noshift (m e : Z) (l : location) :
  fexp prec emax (Zdigits2 m + e) - e <= 0 ->
  shr_fexp prec emax m e l = (shr_record_of_loc m l, e).
Proof.
  intros H. unfold shr_fexp, shr.
  destruct (fexp prec emax (Zdigits2 m + e) - e); try reflexivity. lia.
Qed.

(** A mantissa already at its canonical exponent is left as it is. *)
Lemma binary_round_aux_exact (sx : bool) (mz : positive) (ez : Z) :
  fexp prec emax (Zpos (digits2_pos mz) + ez) = ez -> ez <= 971 ->
  binary_round_aux prec emax sx (Zpos mz) ez loc_Exact = S754_finite sx mz ez.
Proof.
  intros Hc Hez. unfold binary_round_aux.
  rewrite shr_fexp_noshift by (cbn [Zdigits2]; lia).
  cbn [shr_record_of_loc shr_m loc_of_shr_record round_nearest_even].
  rewrite shr_fexp_noshift by (cbn [Zdigits2]; lia).
  cbn [shr_record_of_loc shr_m].
  replace (ez <=? emax - prec) with true; [reflexivity|].
  symmetry. apply Z.leb_le. change (emax - prec) with 971. exact Hez.
Qed.

(** Integers below [2^53] in absolute value convert without rounding. *)
Lemma binary_normalize_int (n : Z) :
  - 2 ^ 53 < n < 2 ^ 53 ->
  represents_int (binary_normalize prec emax n 0 false) n /\
  (0 <= n -> binary_normalize prec emax n 0 false <> S754_zero true).
Proof.
  intros Hn.
  assert (Hround : forall (sx : bool) (p : positive),
            Zpos p < 2 ^ 53 ->
            exists (mz : positive) (ez : Z),
              binary_round prec emax sx p 0 = S754_finite sx mz ez /\
              ez <= 0 /\ Zpos mz = Zpos p * 2 ^ (- ez)).
  { intros sx p Hp.
    assert (Hd : Zpos (digits2_pos p) <= 53).
    { apply (float64.Zdigits2_le (Zpos p) 53); lia. }
    unfold binary_round. rewrite float64.fexp_eq.
    replace (Z.max (Zpos (digits2_pos p) + 0 - 53) (-1074))
      with (Zpos (digits2_pos p) - 53) by lia.
    destruct (float64.shl_align_spec p 0 (Zpos (digits2_pos p) - 53))
      as (He & Hv & Hdz).
    destruct (shl_align p 0 _) as [mz ez]. cbn [fst snd] in He, Hv, Hdz.
    exists mz, ez. split.
    - apply binary_round_aux_exact; [rewrite float64.fexp_eq | ]; lia.
    - split; [lia|]. rewrite Hv. f_equal. f_equal. lia. }
  destruct n as [|p|p]; cbn [binary_normalize].
  - split; [reflexivity | discriminate].
  - destruct (Hround false p ltac:(lia)) as (mz & ez & -> & He & Hv).
    split; [|discriminate]. cbn [represents_int cond_Zopp]. split; [exact He | exact Hv].
  - destruct (Hround true p ltac:(lia)) as (mz & ez & -> & He & Hv).
    split; [|lia]. cbn [represents_int cond_Zopp]. split; [exact He|].
    change (- Zpos mz = - Zpos p * 2 ^ (- ez)). rewrite Hv. ring.
Qed.

Lemma float64_of_int64_exact (n : Z) :
  - 2 ^ 53 < n < 2 ^ 53 ->
  represents_int (Prim2SF (time.float64_of_int64 n)) n /\
  Prim2SF (time.float64_of_int64 n) <> S754_zero true.
Proof.
  intros Hn. change (2 ^ 53) with 9007199254740992 in Hn.
  unfold time.float64_of_int64. destruct (n <? 0) eqn:Hs.
  - apply Z.ltb_lt in Hs.
    rewrite FloatAxioms.opp_spec, FloatAxioms.of_uint63_spec, Uint63.of_Z_spec.
    rewrite Z.mod_small by (change wB with 9223372036854775808; lia).
    destruct (binary_normalize_int (- n)) as [Hr _];
      [change (2 ^ 53) with 9007199254740992; lia|].
    destruct (binary_normalize prec emax (- n) 0 false) as [s|s| |s m e];
      cbn [represents_int SFopp] in *; try contradiction; try lia.
    split; [|discriminate]. destruct Hr as [He Hv]. split; [exact He|].
    destruct s; cbn [cond_Zopp negb] in *; lia.
  - apply Z.ltb_ge in Hs.
    rewrite FloatAxioms.of_uint63_spec, Uint63.of_Z_spec.
    rewrite Z.mod_small by (change wB with 9223372036854775808; lia).
    destruct (binary_normalize_int n) as [Hr Hz];
      [change (2 ^ 53) with 9007199254740992; lia|].
    split; [exact Hr | exact (Hz Hs)].
Qed.

(** Adding the zero that [nsec/1e9] is for a whole number of seconds. *)
Lemma add_zero_r (x : float) :
  Prim2SF x <> S754_zero true -> (x + 0)%float = x.
Proof.
  intros Hx. apply Prim2SF_inj. rewrite FloatAxioms.add_spec.
  change (Prim2SF 0) with (S754_zero false).
  destruct (Prim2SF x) as [[|]|[|]| |s m e]; try reflexivity. contradiction.
Qed.

(** [Seconds] of a whole number of seconds is the conversion of that
    number, which holds it without rounding. *)
Theorem Seconds_whole (n : Z) :
  - 2 ^ 63 <= n * time.Second < 2 ^ 63 ->
  time.Seconds (n * time.Second) = time.float64_of_int64 n /\
  represents_int (Prim2SF (time.float64_of_int64 n)) n.
Proof.
  intros Hn. unfold time.Second in Hn. change (2 ^ 63) with 9223372036854775808 in Hn.
  destruct (float64_of_int64_exact n) as [Hr Hz];
    [change (2 ^ 53) with 9007199254740992; lia|].
  split; [|exact Hr].
  unfold time.Seconds. cbv zeta.
  rewrite Z.quot_mul, Z.rem_mul by discriminate.
  change (time.float64_of_int64 0 / 1e9)%float with 0%float.
  now apply add_zero_r.
Qed.

End float64_exact.

Section WholeSeconds.

Variable Decode : string -> ext_error + ReadRequest.

(** X20: whole seconds are reported exactly. When the latency query returns
    a whole number [n] of seconds, the "value" of the response is the
    [float64] that holds [n] without rounding. *)
Theorem ledger_latency_whole_seconds (s : Sidecar) (r : Request) (n : Z) :
  GetLedgerLatency (reader s) = (n * time.Second, None) ->
  - 2 ^ 63 <= n * time.Second < 2 ^ 63 ->
  exists f : float,
    ResponseBody (response Decode s GetLedgerLatencyRoute r)
      = [JSONLine (Map {[ "value" := Float64 f; "unit" := String_ "seconds" ]})] /\
    represents_int (Prim2SF f) n.
Proof.
  intros HR Hn. exists (time.float64_of_int64 n).
  destruct (float64_exact.Seconds_whole n Hn) as [Hs Hrep]. split; [|exact Hrep].
  unfold response, served, ServeHTTP, handleErr. cbn [route_handler].
  unfold getLedgerLatency, defer, reader_GetLedgerLatency, observeAPILatency,
    Encode, bind, emit, ret.
  cbn [fst snd]. rewrite HR. cbv zeta.
  rewrite json_supported_latency, (float64.Seconds_finite _ Hn), Hs.
  reflexivity.
Qed.

End WholeSeconds.

(** ** The further theorems at the fixtures *)

(** X1 at a reader that refuses every scan. *)
Lemma scan_reader_error_witness :
  ResponseBody (response Demo.Decode (DemoMore.sidecar DemoMore.refusing 0)
                  GetRowsByKeyPrefixRoute (Demo.request "{}"))
    = [TextLine "ldb unavailable"] /\
  count is_cursor_call
    (trace (served Demo.Decode (DemoMore.sidecar DemoMore.refusing 0)
              GetRowsByKeyPrefixRoute (Demo.request "{}"))) = 0%nat.
Proof.
  destruct (scan_reader_error Demo.Decode (DemoMore.sidecar DemoMore.refusing 0)
              (Demo.request "{}") {| Key := [] |} (ExtError "ldb unavailable")
              eq_refl eq_refl) as (_ & _ & Hb & Hc).
  split; [exact Hb | exact Hc].
Defined.

(** X2 at a cursor whose second record fails to scan. *)
Lemma scan_stops_at_failing_record_witness :
  List.filter is_cursor_call
    (trace (snd (getRowsByKeyPrefix Demo.Decode Demo.unhealthy
                   (Demo.request "{}") fresh)))
    = [RowsNext true; RowsScan; RowsNext true; RowsScan; RowsClose] /\
  ResponseBody (response Demo.Decode Demo.unhealthy GetRowsByKeyPrefixRoute
                  (Demo.request "{}"))
    = [TextLine "scan: bad column"].
Proof.
  assert (H : maxRows Demo.unhealthy <= 0 \/ Z.of_nat 1 <= maxRows Demo.unhealthy)
    by (left; simpl; lia).
  destruct (scan_stops_at_failing_record Demo.Decode Demo.unhealthy
              (Demo.request "{}") {| Key := [] |} [Demo.row 1 "Ann"]
              (ExtError "bad column")
              (RowsMore (inr (Demo.row 3 "Cyd")) (RowsEnd None))
              eq_refl eq_refl H) as (_ & Ht & _ & Hb).
  split; [exact Ht | exact Hb].
Defined.

(** X3 at a cursor that ends with an error after two rows. *)
Lemma scan_iteration_error_witness :
  List.filter is_cursor_call
    (trace (snd (getRowsByKeyPrefix Demo.Decode
                   (DemoMore.sidecar DemoMore.finding 5) (Demo.request "{}") fresh)))
    = [RowsNext true; RowsScan; RowsNext true; RowsScan;
       RowsNext false; RowsErr; RowsClose] /\
  ResponseBody (response Demo.Decode (DemoMore.sidecar DemoMore.finding 5)
                  GetRowsByKeyPrefixRoute (Demo.request "{}"))
    = [TextLine "connection reset"].
Proof.
  assert (H : maxRows (DemoMore.sidecar DemoMore.finding 5) <= 0 \/
              Z.of_nat (length Demo.two_rows)
              <= maxRows (DemoMore.sidecar DemoMore.finding 5))
    by (right; simpl; lia).
  destruct (scan_iteration_error Demo.Decode (DemoMore.sidecar DemoMore.finding 5)
              (Demo.request "{}") {| Key := [] |} Demo.two_rows
              (ExtError "connection reset") eq_refl eq_refl H)
    as (_ & Ht & _ & Hb).
  split; [exact Ht | exact Hb].
Defined.

(** X4 at two rows against a ceiling of 2. *)
Lemma scan_response_within_ceiling_witness :
  0 < maxRows (Demo.sidecar Demo.two_rows 2) /\
  exists rs : list Row,
    ResponseBody (response Demo.Decode (Demo.sidecar Demo.two_rows 2)
                    GetRowsByKeyPrefixRoute (Demo.request "{}"))
      = [JSONLine (Slice (Map <$> rs))] /\
    Z.of_nat (length rs) <= 2.
Proof.
  assert (H : 0 < maxRows (Demo.sidecar Demo.two_rows 2)) by (simpl; lia).
  split; [exact H|].
  exact (scan_response_within_ceiling Demo.Decode (Demo.sidecar Demo.two_rows 2)
           (Demo.request "{}") H eq_refl).
Defined.

(** X5 at three rows against a ceiling of 2. *)
Lemma scan_fetch_bound_witness :
  Z.of_nat (count is_scan
              (trace (served Demo.Decode (Demo.sidecar Demo.three_rows 2)
                        GetRowsByKeyPrefixRoute (Demo.request "{}")))) <= 3.
Proof.
  assert (H : 0 < maxRows (Demo.sidecar Demo.three_rows 2)) by (simpl; lia).
  exact (scan_fetch_bound Demo.Decode (Demo.sidecar Demo.three_rows 2)
           (Demo.request "{}") H).
Defined.

(** X6 at a reader that finds Bob. *)
Lemma lookup_found_witness :
  StatusCode (response Demo.Decode (DemoMore.sidecar DemoMore.finding 0)
                GetRowByKeyRoute (Demo.request "{}")) = 200 /\
  ResponseBody (response Demo.Decode (DemoMore.sidecar DemoMore.finding 0)
                  GetRowByKeyRoute (Demo.request "{}"))
    = [JSONLine (Map {[ "id" := Int64 42; "name" := String_ "Bob" ]})].
Proof.
  destruct (lookup_found Demo.Decode (DemoMore.sidecar DemoMore.finding 0)
              (Demo.request "{}") {| Key := [] |} (Demo.row 42 "Bob")
              eq_refl eq_refl eq_refl) as (_ & Hs & Hb & _).
  split; [exact Hs | exact Hb].
Defined.

(** X7 at a reader whose lookups fail. *)
Lemma lookup_reader_error_witness :
  StatusCode (response Demo.Decode Demo.unhealthy GetRowByKeyRoute
                (Demo.request "{}")) = 500 /\
  ResponseBody (response Demo.Decode Demo.unhealthy GetRowByKeyRoute
                  (Demo.request "{}"))
    = [TextLine "replica unreachable"].
Proof.
  destruct (lookup_reader_error Demo.Decode Demo.unhealthy (Demo.request "{}")
              {| Key := [] |} ∅ false (ExtError "replica unreachable")
              eq_refl eq_refl) as (_ & Hs & Hb & _).
  split; [exact Hs | exact Hb].
Defined.

(** X8 at a reader whose latency query fails. *)
Lemma ledger_latency_error_witness :
  ResponseBody (response Demo.Decode Demo.unhealthy GetLedgerLatencyRoute
                  (Demo.request ""))
    = [TextLine "get ledger latency: replica unreachable"].
Proof.
  exact (proj2 (proj2
    (ledger_latency_error Demo.Decode Demo.unhealthy (Demo.request "") 0
       (ExtError "replica unreachable") eq_refl))).
Defined.

(** X13 at the same scan sent by two callers. *)
Lemma response_ignores_user_agent_and_url_witness :
  UserAgent (Demo.request "{}") <> UserAgent (DemoMore.other_caller "{}") /\
  response Demo.Decode (Demo.sidecar Demo.three_rows 2) GetRowsByKeyPrefixRoute
    (Demo.request "{}")
  = response Demo.Decode (Demo.sidecar Demo.three_rows 2) GetRowsByKeyPrefixRoute
      (DemoMore.other_caller "{}").
Proof.
  split; [discriminate|].
  exact (proj1 (response_ignores_user_agent_and_url Demo.Decode
                  (Demo.sidecar Demo.three_rows 2) GetRowsByKeyPrefixRoute
                  (Demo.request "{}") (DemoMore.other_caller "{}")
                  eq_refl eq_refl)).
Defined.

(** X15 at a database that refuses the query for two tables. *)
Lemma column_query_error_witness :
  mysql.GetColumnInfo DemoDb.SqlSprintf DemoDb.SQLPlaceholderSet
    DemoMore.refusing_db ["users"; "orders"] []
  = ((None, Some (ExtError "connection refused")),
     [mysql.Query
        ("SELECT table_name, ordinal_position, column_name, data_type, column_key "
         +:+ "FROM information_schema.columns "
         +:+ "WHERE table_name IN (?,?) "
         +:+ "AND table_schema = DATABASE() "
         +:+ "ORDER BY table_name, ordinal_position ASC")
        [String_ "users"; String_ "orders"]]).
Proof.
  assert (Hne : ["users"; "orders"] <> @nil string) by discriminate.
  destruct (mysql_properties.column_query_error DemoDb.SqlSprintf
              DemoDb.SQLPlaceholderSet DemoMore.refusing_db ["users"; "orders"]
              (ExtError "connection refused") Hne eq_refl) as (Hf & Ht & _).
  apply injective_projections; [exact Hf | exact Ht].
Defined.

(** X16 at the two columns of [users]. *)
Lemma columns_returned_in_order_witness :
  fst (mysql.GetColumnInfo DemoDb.SqlSprintf DemoDb.SQLPlaceholderSet
         DemoDb.db ["users"] [])
  = (Some [ {| mysql.TableName := "users"; mysql.Index := 1;
               mysql.ColumnName := "id"; mysql.DataType := "int";
               mysql.IsPrimaryKey := true |};
            {| mysql.TableName := "users"; mysql.Index := 2;
               mysql.ColumnName := "name"; mysql.DataType := "varchar";
               mysql.IsPrimaryKey := false |} ], None).
Proof.
  assert (Hne : ["users"] <> @nil string) by discriminate.
  destruct (mysql_properties.columns_returned_in_order DemoDb.SqlSprintf
              DemoDb.SQLPlaceholderSet DemoDb.db ["users"]
              [DemoDb.id_column; DemoDb.name_column] Hne eq_refl) as (Hout & _).
  exact (f_equal fst Hout).
Defined.

(** X18 at rows that fail to scan at the second record. *)
Lemma column_rows_closed_once_witness :
  exists pre : list mysql.Event,
    snd (mysql.GetColumnInfo DemoDb.SqlSprintf DemoDb.SQLPlaceholderSet
           DemoDb.broken ["users"] []) = pre ++ [mysql.Close] /\
    mysql.count mysql.is_close pre = 0%nat.
Proof.
  assert (Hne : ["users"] <> @nil string) by discriminate.
  exact (mysql_properties.column_rows_closed_once DemoDb.SqlSprintf
           DemoDb.SQLPlaceholderSet DemoDb.broken ["users"] _ Hne eq_refl).
Defined.

(** X19 at rows that fail to scan at the second record. *)
Lemma columns_stop_at_failing_record_witness :
  mysql.GetColumnInfo DemoDb.SqlSprintf DemoDb.SQLPlaceholderSet
    DemoDb.broken ["users"] []
  = ((None, Some (ExtError "converting NULL to string")),
     [mysql.Query
        ("SELECT table_name, ordinal_position, column_name, data_type, column_key "
         +:+ "FROM information_schema.columns "
         +:+ "WHERE table_name IN (?) "
         +:+ "AND table_schema = DATABASE() "
         +:+ "ORDER BY table_name, ordinal_position ASC")
        [String_ "users"];
      mysql.Next true; mysql.Scan; mysql.Next true; mysql.Scan; mysql.Close]).
Proof.
  assert (Hne : ["users"] <> @nil string) by discriminate.
  exact (mysql_properties.columns_stop_at_failing_record DemoDb.SqlSprintf
           DemoDb.SQLPlaceholderSet DemoDb.broken ["users"] [DemoDb.id_column]
           (ExtError "converting NULL to string")
           (mysql.records [DemoDb.name_column] None) Hne eq_refl).
Defined.

(** X20 at a lag of three seconds. *)
Lemma ledger_latency_whole_seconds_witness :
  - 2 ^ 63 <= 3 * time.Second < 2 ^ 63 /\
  exists f : float,
    ResponseBody (response Demo.Decode (DemoMore.sidecar DemoMore.finding 0)
                    GetLedgerLatencyRoute (Demo.request ""))
      = [JSONLine (Map {[ "value" := Float64 f; "unit" := String_ "seconds" ]})] /\
    represents_int (Prim2SF f) 3.
Proof.
  assert (H : - 2 ^ 63 <= 3 * time.Second < 2 ^ 63)
    by (unfold time.Second; simpl; lia).
  split; [exact H|].
  exact (ledger_latency_whole_seconds Demo.Decode
           (DemoMore.sidecar DemoMore.finding 0) (Demo.request "") 3 eq_refl H).
Defined.
